(** * single-market-robot-simulator: the Simulation class

    A shallow embedding of [src/index.js] (class [Simulation]) and of the
    [Log] class of [build/index.js].

    Conventions of the embedding.
    - A JavaScript number is an exact rational ([Qc]); rounding, [NaN] and the
      infinities of IEEE doubles are outside the model.
    - A property that may be [undefined] is an [option]; [truthy] is
      JavaScript's truthiness on such a number ([undefined] and [0] are falsy).
    - The Simulation object is a record; a method is a state transformer in the
      monad [M], which also carries a thrown exception.  A [throw] keeps the
      state reached so far, as an exception does in JavaScript.
    - [sim.config] is the caller's object (the constructor stores the
      reference), so there is one configuration object: the [config] field is
      that object, and an assignment to [config.buyerRate] is an assignment to
      the caller's object.
    - The agent pool, the matching engine and the host (timers, clock) are
      other packages.  Their state is an abstract type and their operations
      are the members of the class [Collaborators].
    - [console.log] output is not modelled. *)

From Stdlib Require Import QArith Qcanon Qround.
From stdpp Require Import gmap strings list sorting numbers.

Local Open Scope Qc_scope.

(** ** JavaScript values *)

Notation "# z" := (Qc_of_Z z) (at level 1, format "# z").

Definition truthy (x : option Qc) : bool :=
  match x with
  | Some q => bool_decide (q ≠ 0)
  | None => false
  end.

(** [a || b] on a number that may be undefined. *)
Definition or_else (x : option Qc) (y : Qc) : Qc :=
  match x with
  | Some q => if bool_decide (q ≠ 0) then q else y
  | None => y
  end.

(** A cell of a log row: rows hold numbers and strings. *)
Inductive Cell :=
  | Num (q : Qc)
  | Str (s : string)
  | Bool (b : bool).

#[global] Instance Cell_eq_dec : EqDecision Cell.
Proof. solve_decision. Defined.

Abbreviation Row := (list Cell).

Inductive Exn :=
  | Error (msg : string)       (* throw new Error(msg) *)
  | TypeError (msg : string).  (* a property read on undefined *)

Inductive Completion (A : Type) :=
  | Normal (a : A)
  | Throw (e : Exn).
Arguments Normal {A} a.
Arguments Throw {A} e.

(** ** Log (build/index.js) *)

Record Log := mkLog {
  fname : string;
  header : option Row;
  last : option Row;
  data : list Row          (* the rows written, in order (memory or file) *)
}.

Definition Log_new (fname : string) : Log :=
  {| fname := fname; header := None; last := None; data := [] |}.

(** [write(x)]: [undefined] is not written. *)
Definition Log_write (x : option Row) (l : Log) : Log :=
  match x with
  | None => l
  | Some r =>
      {| fname := fname l; header := header l; last := Some r;
         data := data l ++ [r] |}
  end.

(** [setHeader(x)]: an array becomes the header and is written; anything
    else is ignored. *)
Definition Log_setHeader (x : option Row) (l : Log) : Log :=
  match x with
  | Some h =>
      Log_write (Some h)
        {| fname := fname l; header := Some h; last := last l; data := data l |}
  | None => l
  end.

(** [array.indexOf(k)]: the first position of [k]; [None] stands for -1. *)
Fixpoint indexOf (k : Cell) (array : Row) : option nat :=
  match array with
  | [] => None
  | x :: rest => if decide (x = k) then Some 0%nat else S <$> indexOf k rest
  end.

(** [lastByKey(k)]: the cell of the last row written, in the column the
    header gives to [k]. *)
Definition Log_lastByKey (k : string) (l : Log) : option Cell :=
  match header l, last l with
  | Some h, Some r =>
      if bool_decide (h ≠ []) && bool_decide (r ≠ [])
      then i ← indexOf (Str k) h; r !! i
      else None
  | _, _ => None
  end.

(** ** Headers and log names *)

Definition orderHeader : Row :=
  Str <$> ["period"; "t"; "tp"; "id"; "x"; "buyLimitPrice"; "value";
           "sellLimitPrice"; "cost"]%string.

Definition logHeaders : gmap string Row :=
  list_to_map
    [ ("ohlc", Str <$> ["period"; "open"; "high"; "low"; "close"]);
      ("buyorder", orderHeader);
      ("sellorder", orderHeader);
      ("rejectbuyorder", orderHeader);
      ("rejectsellorder", orderHeader);
      ("trade", Str <$> ["period"; "t"; "tp"; "price"; "buyerAgentId";
                         "buyerValue"; "buyerProfit"; "sellerAgentId";
                         "sellerCost"; "sellerProfit"]);
      ("volume", Str <$> ["period"; "volume"]);
      ("effalloc", Str <$> ["period"; "efficiencyOfAllocation"]) ]%string.

Definition logNames : list string :=
  ["trade"; "buyorder"; "sellorder"; "rejectbuyorder"; "rejectsellorder";
   "profit"; "ohlc"; "volume"; "effalloc"]%string.

(** ** Configuration *)

Module Config.
Record t := mk {
  periods : Qc;
  periodDuration : option Qc;
  buyerAgentType : list string;
  sellerAgentType : list string;
  (* before construction: whatever the caller wrote, here an array of
     numbers or nothing; positiveNumberArray decides what is usable *)
  buyerRate : option (list Qc);
  sellerRate : option (list Qc);
  buyerValues : option (list Qc);      (* None: undefined *)
  sellerCosts : option (list Qc);
  numberOfBuyers : option Qc;
  numberOfSellers : option Qc;
  xMarket : option (gmap string Cell);
  integer : bool;
  ignoreBudgetConstraint : bool;
  keepPreviousOrders : bool;
  L : option Qc;
  H : option Qc;
  silent : bool;
  withoutOrderLogs : bool;
  realtime : bool;
  logDir : option string;
  logToFileSystem : bool
}.

Definition set_buyerRate (r : option (list Qc)) (c : t) : t :=
  mk (periods c) (periodDuration c) (buyerAgentType c) (sellerAgentType c)
     r (sellerRate c) (buyerValues c) (sellerCosts c) (numberOfBuyers c)
     (numberOfSellers c) (xMarket c) (integer c) (ignoreBudgetConstraint c)
     (keepPreviousOrders c) (L c) (H c) (silent c) (withoutOrderLogs c)
     (realtime c) (logDir c) (logToFileSystem c).

Definition set_sellerRate (r : option (list Qc)) (c : t) : t :=
  mk (periods c) (periodDuration c) (buyerAgentType c) (sellerAgentType c)
     (buyerRate c) r (buyerValues c) (sellerCosts c) (numberOfBuyers c)
     (numberOfSellers c) (xMarket c) (integer c) (ignoreBudgetConstraint c)
     (keepPreviousOrders c) (L c) (H c) (silent c) (withoutOrderLogs c)
     (realtime c) (logDir c) (logToFileSystem c).

Definition set_buyerValues (v : option (list Qc)) (c : t) : t :=
  mk (periods c) (periodDuration c) (buyerAgentType c) (sellerAgentType c)
     (buyerRate c) (sellerRate c) v (sellerCosts c) (numberOfBuyers c)
     (numberOfSellers c) (xMarket c) (integer c) (ignoreBudgetConstraint c)
     (keepPreviousOrders c) (L c) (H c) (silent c) (withoutOrderLogs c)
     (realtime c) (logDir c) (logToFileSystem c).

Definition set_sellerCosts (v : option (list Qc)) (c : t) : t :=
  mk (periods c) (periodDuration c) (buyerAgentType c) (sellerAgentType c)
     (buyerRate c) (sellerRate c) (buyerValues c) v (numberOfBuyers c)
     (numberOfSellers c) (xMarket c) (integer c) (ignoreBudgetConstraint c)
     (keepPreviousOrders c) (L c) (H c) (silent c) (withoutOrderLogs c)
     (realtime c) (logDir c) (logToFileSystem c).
End Config.

(** ** What the collaborators expose *)

Record Inventory := mkInventory { X : Qc; money : Qc }.

(** An agent as the simulation reads it. *)
Record Agent := mkAgent {
  id : Qc;
  inventory : Inventory;
  period_startTime : Qc;
  unitValueFunction : string → Inventory → Qc;
  unitCostFunction : string → Inventory → Qc
}.

(** The trade event of the matching engine. *)
Module tradespec.
Record t := mk {
  t_ : Qc;                 (* tradespec.t *)
  totalQ : Qc;
  buyA : list nat;         (* indices into xMarket.a *)
  sellA : list nat;
  prices : list Qc
}.
End tradespec.

(** An order as [MEC.ao(orderArray)] returns it. *)
Module order.
Record t := mk {
  t_ : Qc;                 (* order.t *)
  id : Qc;
  buyPrice : option Qc;
  sellPrice : option Qc
}.
End order.

Inductive MarketEvent :=
  | trade (ts : tradespec.t)
  | preorder (o : order.t)
  | reject (o : order.t).

(** A call of [pool.syncRun]: the matching engine calls the registered
    listeners back while the call runs.  [Emit ev e k]: the listeners of [ev]
    are called in collaborator state [e]; the call goes on with [k e'] from
    the state [e'] the listeners leave.  [Done e]: the call returns in state
    [e].  The type is inductive: a call that returns makes finitely many
    callbacks. *)
Inductive Run (E : Type) :=
  | Done (e : E)
  | Emit (ev : MarketEvent) (e : E) (k : E → Run E).
Arguments Done {E} e.
Arguments Emit {E} ev e k.

(** Options of an agent constructor: [common] of initAgents and the rate.
    The constant part of [common.period] (number 0, equalDuration true, an
    empty initial inventory) is left out. *)
Record AgentOptions := mkAgentOptions {
  opt_integer : bool;
  opt_ignoreBudgetConstraint : bool;
  opt_period_duration : Qc;
  minPrice : option Qc;
  maxPrice : option Qc;
  rate : option Qc
}.

Inductive PoolName := pool | buyersPool | sellersPool.

(** The packages market-example-contingent, market-agents and
    positive-number-array, and the host's timers and clock.  [E] is the state
    of all of them. *)
Class Collaborators (E : Type) := {
  (* positive-number-array *)
  positiveNumberArray : option (list Qc) → option (list Qc);
  (* market-example-contingent *)
  Market_new : gmap string Cell → E → E;
  xMarket_clear : E → E;
  xMarket_o_idCol : E → option nat;
  xMarket_a : E → list (list Qc);
  (* market-agents: construction.  An agent object is named by a number. *)
  Pool_new : PoolName → E → E;
  AgentFactoryWarehouse_new : option string → AgentOptions → E → option (nat * E);
  agent_learn : nat → E → E;   (* A.bid, A.ask, A.markets, A.getJuicy... are set *)
  Pool_push : PoolName → nat → E → E;
  Pool_distribute : PoolName → string → string → option (list Qc) → E → E;
  (* market-agents: running *)
  pool_agents : E → list Agent;
  pool_agentsById : E → gmap Qc Agent;
  pool_initPeriod : Qc → E → E;
  pool_endPeriod : E → E;
  pool_endTime : E → option Qc;
  pool_trade : tradespec.t → E → E;
  (* the closures given to the agents read sim.config and sim.logs *)
  pool_syncRun : Config.t → gmap string Log → option Qc → E → Run E;
  pool_runAsPromise : Config.t → gmap string Log → option Qc → Qc → E → E;
  (* host *)
  Date_now : E → Qc;
  setInterval : bool → Qc → E → option (nat * E);  (* is the callback a function *)
  clearInterval : nat → E → E
}.

Section Simulation.
Context {E : Type} `{!Collaborators E}.

(** ** The Simulation object *)

Record Simulation := mkSimulation {
  config : Config.t;       (* this.config = config: the caller's object
                              itself, no copy is made *)
  logs : gmap string Log;
  outside : E;     (* sim.pool, sim.buyersPool, sim.sellersPool, sim.xMarket
                      and the host *)
  orderListeners : bool;   (* initMarket registered 'preorder' and 'reject' *)
  numberOfBuyers : Qc;
  numberOfSellers : Qc;
  numberOfAgents : Qc;
  periodDuration : Qc;
  period : Qc;
  periodTradePrices : list Qc;
  realtime : option Qc;
  realtimeIntervalId : option nat;
  maximumPossibleGainsFromTrade : option Qc
}.

Definition M (A : Type) : Type := Simulation → Completion A * Simulation.

Definition ret {A} (a : A) : M A := λ sim, (Normal a, sim).
Definition throw {A} (e : Exn) : M A := λ sim, (Throw e, sim).
Definition bind {A B} (m : M A) (k : A → M B) : M B :=
  λ sim, match m sim with
         | (Normal a, sim') => k a sim'
         | (Throw e, sim') => (Throw e, sim')
         end.
Definition get : M Simulation := λ sim, (Normal sim, sim).
Definition modify (f : Simulation → Simulation) : M unit :=
  λ sim, (Normal tt, f sim).


#[global] Instance M_ret : MRet M := @ret.
#[global] Instance M_bind : MBind M := λ A B k m, bind m k.

Definition set_outside (e : E) (sim : Simulation) : Simulation :=
  mkSimulation (config sim) (logs sim) e (orderListeners sim)
    (numberOfBuyers sim) (numberOfSellers sim) (numberOfAgents sim)
    (periodDuration sim) (period sim) (periodTradePrices sim) (realtime sim)
    (realtimeIntervalId sim) (maximumPossibleGainsFromTrade sim).

Definition set_logs (l : gmap string Log) (sim : Simulation) : Simulation :=
  mkSimulation (config sim) l (outside sim) (orderListeners sim)
    (numberOfBuyers sim) (numberOfSellers sim) (numberOfAgents sim)
    (periodDuration sim) (period sim) (periodTradePrices sim) (realtime sim)
    (realtimeIntervalId sim) (maximumPossibleGainsFromTrade sim).

Definition set_period (p : Qc) (sim : Simulation) : Simulation :=
  mkSimulation (config sim) (logs sim) (outside sim) (orderListeners sim)
    (numberOfBuyers sim) (numberOfSellers sim) (numberOfAgents sim)
    (periodDuration sim) p (periodTradePrices sim) (realtime sim)
    (realtimeIntervalId sim) (maximumPossibleGainsFromTrade sim).

Definition set_periodTradePrices (ps : list Qc) (sim : Simulation) : Simulation :=
  mkSimulation (config sim) (logs sim) (outside sim) (orderListeners sim)
    (numberOfBuyers sim) (numberOfSellers sim) (numberOfAgents sim)
    (periodDuration sim) (period sim) ps (realtime sim)
    (realtimeIntervalId sim) (maximumPossibleGainsFromTrade sim).

Definition set_realtime (r : option Qc) (sim : Simulation) : Simulation :=
  mkSimulation (config sim) (logs sim) (outside sim) (orderListeners sim)
    (numberOfBuyers sim) (numberOfSellers sim) (numberOfAgents sim)
    (periodDuration sim) (period sim) (periodTradePrices sim) r
    (realtimeIntervalId sim) (maximumPossibleGainsFromTrade sim).

Definition set_realtimeIntervalId (i : option nat) (sim : Simulation) : Simulation :=
  mkSimulation (config sim) (logs sim) (outside sim) (orderListeners sim)
    (numberOfBuyers sim) (numberOfSellers sim) (numberOfAgents sim)
    (periodDuration sim) (period sim) (periodTradePrices sim) (realtime sim)
    i (maximumPossibleGainsFromTrade sim).

Definition set_maximumPossibleGainsFromTrade (g : option Qc) (sim : Simulation)
  : Simulation :=
  mkSimulation (config sim) (logs sim) (outside sim) (orderListeners sim)
    (numberOfBuyers sim) (numberOfSellers sim) (numberOfAgents sim)
    (periodDuration sim) (period sim) (periodTradePrices sim) (realtime sim)
    (realtimeIntervalId sim) g.

(** The caller (or anyone holding the configuration object) writes it. *)
Definition set_config (c : Config.t) (sim : Simulation) : Simulation :=
  mkSimulation c (logs sim) (outside sim) (orderListeners sim)
    (numberOfBuyers sim) (numberOfSellers sim) (numberOfAgents sim)
    (periodDuration sim) (period sim) (periodTradePrices sim) (realtime sim)
    (realtimeIntervalId sim) (maximumPossibleGainsFromTrade sim).

(** [sim.logs[name].write(row)] when the log exists. *)
Definition written (name : string) (row : option Row) (sim : Simulation)
  : Simulation :=
  match logs sim !! name with
  | Some l => set_logs (<[name := Log_write row l]> (logs sim)) sim
  | None => sim
  end.

Definition write_log (name : string) (row : option Row) : M unit :=
  modify (written name row).

(** ** logTrade *)

Definition logTrade (ts : tradespec.t) : M unit :=
  sim ← get;
  match xMarket_o_idCol (outside sim) with
  | None =>
      throw (Error "Simulation.prototype.logTrade: sim.xMarket.o.idCol is undefined")
  | Some idCol =>
      if bool_decide (tradespec.totalQ ts ≠ 1)
         || bool_decide (length (tradespec.buyA ts) ≠ 1%nat)
         || bool_decide (length (tradespec.sellA ts) ≠ 1%nat)
      then throw (Error "Simulation.prototype.logTrade: single unit trades required")
      else
        match tradespec.buyA ts !! 0%nat ≫= (xMarket_a (outside sim) !!.) with
        | None => throw (TypeError "sim.xMarket.a[tradespec.buyA[0]] is undefined")
        | Some buyOrder =>
        match buyOrder !! idCol with
        | None => throw (Error "Simulation.prototype.logTrade: buyerid is undefined")
        | Some buyerid =>
        match tradespec.sellA ts !! 0%nat ≫= (xMarket_a (outside sim) !!.) with
        | None => throw (TypeError "sim.xMarket.a[tradespec.sellA[0]] is undefined")
        | Some sellOrder =>
        match sellOrder !! idCol with
        | None => throw (Error "Simulation.prototype.logTrade: sellerid is undefined")
        | Some sellerid =>
        let tradePrice := tradespec.prices ts !! 0%nat in
        if negb (truthy tradePrice)
        then throw (Error "Simulation.prototype.logTrade: undefined price in trade ")
        else
          let tradePrice := default 0 tradePrice in
          match pool_agentsById (outside sim) !! buyerid with
          | None => throw (TypeError "sim.pool.agentsById[buyerid] is undefined")
          | Some buyer =>
          let tradeBuyerValue := unitValueFunction buyer "X" (inventory buyer) in
          let tradeBuyerProfit := tradeBuyerValue - tradePrice in
          match pool_agentsById (outside sim) !! sellerid with
          | None => throw (TypeError "sim.pool.agentsById[sellerid] is undefined")
          | Some seller =>
          let tradeSellerCost := unitCostFunction seller "X" (inventory seller) in
          let tradeSellerProfit := tradePrice - tradeSellerCost in
          let tradeOutput :=
            Num <$> [ period sim;
                      tradespec.t_ ts;
                      tradespec.t_ ts - period sim * periodDuration sim;
                      tradePrice;
                      buyerid;
                      tradeBuyerValue;
                      tradeBuyerProfit;
                      sellerid;
                      tradeSellerCost;
                      tradeSellerProfit ] in
          modify (λ sim, set_periodTradePrices (periodTradePrices sim ++ [tradePrice]) sim);;
          write_log "trade" (Some tradeOutput)
          end end end end end end
  end.

(** ** logOrder *)

Definition logOrder (prefix : string) (order : order.t) : M unit :=
  sim ← get;
  let agent := pool_agentsById (outside sim) !! order.id order in
  let buyLog := prefix +:+ "buyorder" in
  let sellLog := prefix +:+ "sellorder" in
  match agent with
  | Some agent =>
      (if truthy (order.buyPrice order)
       then write_log buyLog (Some
              [ Num (period sim);
                Num (order.t_ order);
                Num (order.t_ order - period sim * periodDuration sim);
                Num (order.id order);
                Num (X (inventory agent));
                Num (default 0 (order.buyPrice order));
                Num (unitValueFunction agent "X" (inventory agent));
                Str EmptyString;
                Str EmptyString ])
       else ret ());;
      (if truthy (order.sellPrice order)
       then write_log sellLog (Some
              [ Num (period sim);
                Num (order.t_ order);
                Num (order.t_ order - period sim * periodDuration sim);
                Num (order.id order);
                Num (X (inventory agent));
                Str EmptyString;
                Str EmptyString;
                Num (default 0 (order.sellPrice order));
                Num (unitCostFunction agent "X" (inventory agent)) ])
       else ret ())
  | None => ret ()
  end.

(** [logOrder(prefix, orderArray)] from the order array the market hands to
    the listener.  The first statement is [MEC.ao(orderArray)], and [MEC.ao]
    belongs to market-example-contingent: [ao] is what it does to an array,
    the order it reads from it or the exception it throws. *)
Definition logOrder_of_array {A : Type} (ao : A → Exn + order.t)
    (prefix : string) (orderArray : A) : M unit :=
  match ao orderArray with
  | inr order => logOrder prefix order
  | inl e => throw e
  end.

(** ** getMaximumPossibleGainsFromTrade *)

(** [Array.prototype.sort(compareFn)], as a stable insertion sort: [x] stays
    before [y] unless [compareFn(x, y) > 0]. *)
Fixpoint sort_insert (compareFn : Qc → Qc → Qc) (x : Qc) (l : list Qc) : list Qc :=
  match l with
  | [] => [x]
  | y :: l' =>
      if bool_decide (compareFn x y ≤ 0) then x :: y :: l'
      else y :: sort_insert compareFn x l'
  end.

Definition Array_sort (compareFn : Qc → Qc → Qc) (l : list Qc) : list Qc :=
  foldr (sort_insert compareFn) [] l.

(** The while loop: [buyerV] and [sellerC] from index [i] on. *)
Fixpoint gains_loop (buyerV sellerC : list Qc) (result : Qc) : Qc :=
  match buyerV, sellerC with
  | b :: buyerV', c :: sellerC' =>
      if bool_decide (c < b) then gains_loop buyerV' sellerC' (result + (b - c))
      else result
  | _, _ => result
  end.

Definition getMaximumPossibleGainsFromTrade : M Qc :=
  sim ← get;
  if truthy (maximumPossibleGainsFromTrade sim)
  then ret (default 0 (maximumPossibleGainsFromTrade sim))
  else
    let result :=
      match Config.buyerValues (config sim), Config.sellerCosts (config sim) with
      | Some buyerValues, Some sellerCosts =>
          let buyerV := Array_sort (λ a b, b - a) buyerValues in
          let sellerC := Array_sort (λ a b, a - b) sellerCosts in
          gains_loop buyerV sellerC 0
      | _, _ => 0
      end in
    modify (set_maximumPossibleGainsFromTrade (Some result));;
    ret result.

(** ** logPeriod *)

Definition Qc_max (a b : Qc) : Qc := if bool_decide (a ≤ b) then b else a.
Definition Qc_min (a b : Qc) : Qc := if bool_decide (a ≤ b) then a else b.

(** [Math.max(x, ...xs)] and [Math.min(x, ...xs)].  With no argument at all
    they are the infinities, which the guard of [ohlc] excludes. *)
Definition Math_max (x : Qc) (xs : list Qc) : Qc := foldl Qc_max x xs.
Definition Math_min (x : Qc) (xs : list Qc) : Qc := foldl Qc_min x xs.

Definition ohlc (sim : Simulation) : option Row :=
  match periodTradePrices sim with
  | [] => None
  | o :: rest =>
      let c := default o (periodTradePrices sim
                            !! (length (periodTradePrices sim) - 1)%nat) in
      let h := Math_max o rest in
      let l := Math_min o rest in
      Some (Num <$> [period sim; o; h; l; c])
  end.

Definition logPeriod : M unit :=
  sim ← get;
  let finalMoney := (λ A, money (inventory A)) <$> pool_agents (outside sim) in
  write_log "profit" (Some (Num <$> finalMoney));;
  write_log "ohlc" (ohlc sim);;
  write_log "volume"
    (Some [Num (period sim); Num #(Z.of_nat (length (periodTradePrices sim)))]);;
  (if bool_decide (is_Some (logs sim !! "effalloc"))
   then
     let finalMoneySum := foldl Qcplus 0 finalMoney in
     maxPossible ← getMaximumPossibleGainsFromTrade;
     if bool_decide (0 < maxPossible)
     then write_log "effalloc"
            (Some [Num (period sim); Num (#100 * (finalMoneySum / maxPossible))])
     else ret ()
   else ret ());;
  modify (set_periodTradePrices []).

(** ** The listeners of initMarket and a call of pool.syncRun *)

Definition on_outside (f : E → E) : M unit :=
  modify (λ sim, set_outside (f (outside sim)) sim).

Definition on_event (ev : MarketEvent) : M unit :=
  match ev with
  | trade tradespec =>
      logTrade tradespec;;
      on_outside (pool_trade tradespec)
  | preorder myorder =>
      sim ← get;
      if orderListeners sim then logOrder EmptyString myorder else ret ()
  | reject myorder =>
      sim ← get;
      if orderListeners sim then logOrder "reject" myorder else ret ()
  end.

Fixpoint listen (r : Run E) : M unit :=
  match r with
  | Done e => modify (set_outside e)
  | Emit ev e k =>
      modify (set_outside e);;
      on_event ev;;
      sim ← get;
      listen (k (outside sim))
  end.

Definition syncRun (t : option Qc) : M unit :=
  sim ← get;
  listen (pool_syncRun (config sim) (logs sim) t (outside sim)).

(** ** runPeriod *)

(** What [runPeriod] hands back to its caller. *)
Inductive PeriodOutcome :=
  | Returned                      (* sync: the simulation object *)
  | Pending                       (* a promise the host settles later *)
  | Rejected (reason : string).   (* a promise that is already rejected *)

Definition atEndOfPeriod : M unit :=
  on_outside pool_endPeriod;;
  logPeriod.

(** The handler that [onRealtimeWake(endTime)] returns, run by the host
    every 40 ms; [true] when it resolves the promise of the period. *)
Definition onRealtimeWake (endTime : Qc) : M bool :=
  sim ← get;
  let now := Date_now (outside sim) / #1000 - default 0 (realtime sim) in
  if bool_decide (endTime ≤ now)
  then
    on_outside (match realtimeIntervalId sim with
                | Some i => clearInterval i
                | None => λ e, e
                end);;
    modify (set_realtimeIntervalId None);;
    syncRun (Some endTime);;
    atEndOfPeriod;;
    ret true
  else
    syncRun (Some now);;
    ret false.

(** [sync] is the truthiness of the argument. *)
Definition runPeriod (sync : bool) : M PeriodOutcome :=
  modify (λ sim, set_period (period sim + 1) sim);;
  sim ← get;
  on_outside (pool_initPeriod (period sim));;
  on_outside xMarket_clear;;
  if sync
  then
    sim ← get;
    syncRun (pool_endTime (outside sim));;
    atEndOfPeriod;;
    ret Returned
  else if negb (Config.realtime (config sim))
  then
    sim ← get;
    on_outside (pool_runAsPromise (config sim) (logs sim)
                  (pool_endTime (outside sim)) #10);;
    ret Pending
  else
    (* the executor of new Promise(...) runs at once *)
    sim ← get;
    match realtimeIntervalId sim with
    | Some i =>
        on_outside (clearInterval i);;
        ret (Rejected "sim has unexpected realtimeIntervalId")
    | None =>
        match pool_agents (outside sim) !! 0%nat with
        | None => ret (Rejected "TypeError: sim.pool.agents[0] is undefined")
        | Some agent0 =>
            modify (set_realtime
                      (Some (Date_now (outside sim) / #1000
                             - period_startTime agent0)));;
            let endTime := pool_endTime (outside sim) in
            (* onRealtimeWake(endTime) rejects and returns undefined when
               endTime is falsy; setInterval is called all the same *)
            match setInterval (truthy endTime) #40 (outside sim) with
            | Some (i, e) =>
                modify (set_outside e);;
                modify (set_realtimeIntervalId (Some i));;
                ret (if truthy endTime then Pending
                     else Rejected "period endTime required for onRealtimeWake")
            | None =>
                ret (if truthy endTime then Rejected "setInterval"
                     else Rejected "period endTime required for onRealtimeWake")
            end
        end
    end.

(** ** run *)

(** What a callback returns to [.then]. *)
Inductive Returned_value := the_simulation | undefined_value.

Record RunOptions := mkRunOptions {
  sync : option bool;
  update : option (M Returned_value);
  delay : option Qc
}.

(** The default value of the destructured parameter. *)
Definition run_default : RunOptions :=
  {| sync := Some false; update := Some (ret the_simulation); delay := Some #20 |}.

(** [{sync, update, delay} = {...}]: the default stands in for a missing
    argument, not for a missing property. *)
Definition run_parameter (arg : option RunOptions) : RunOptions :=
  match arg with
  | Some options => options
  | None => run_default
  end.

Inductive LoopResult := Finished | OutOfFuel.

(** The while loop of the synchronous branch; [fuel] bounds its
    iterations, since [update] may do anything to [sim.period]. *)
Fixpoint run_while (fuel : nat) (update : option (M Returned_value)) : M LoopResult :=
  sim ← get;
  if bool_decide (period sim < Config.periods (config sim))
  then
    match fuel with
    | O => ret OutOfFuel
    | S fuel' =>
        runPeriod true;;
        match update with
        | Some f => f;; ret ()
        | None => ret ()
        end;;
        run_while fuel' update
    end
  else ret Finished.



Inductive RunOutcome :=
  | run_returned                     (* return sim *)
  | run_diverged
  | run_promise (first : PeriodOutcome).

Definition run (fuel : nat) (arg : option RunOptions) : M RunOutcome :=
  let options := run_parameter arg in
  if default false (sync options)
  then
    r ← run_while fuel (update options);
    ret (match r with Finished => run_returned | OutOfFuel => run_diverged end)
  else
    (* loop() is called once by the executor; the rest is [run_then] *)
    p ← runPeriod false;
    ret (run_promise p).

(** ** The constructor *)

Definition set_orderListeners (b : bool) (sim : Simulation) : Simulation :=
  mkSimulation (config sim) (logs sim) (outside sim) b
    (numberOfBuyers sim) (numberOfSellers sim) (numberOfAgents sim)
    (periodDuration sim) (period sim) (periodTradePrices sim) (realtime sim)
    (realtimeIntervalId sim) (maximumPossibleGainsFromTrade sim).

Definition set_numbers (buyers sellers agents : Qc) (sim : Simulation) : Simulation :=
  mkSimulation (config sim) (logs sim) (outside sim) (orderListeners sim)
    buyers sellers agents
    (periodDuration sim) (period sim) (periodTradePrices sim) (realtime sim)
    (realtimeIntervalId sim) (maximumPossibleGainsFromTrade sim).

Definition set_periodDuration (d : Qc) (sim : Simulation) : Simulation :=
  mkSimulation (config sim) (logs sim) (outside sim) (orderListeners sim)
    (numberOfBuyers sim) (numberOfSellers sim) (numberOfAgents sim)
    d (period sim) (periodTradePrices sim) (realtime sim)
    (realtimeIntervalId sim) (maximumPossibleGainsFromTrade sim).

Definition initLogs : M unit :=
  sim ← get;
  let withoutOrderLogs :=
    filter (λ s, String.index 0 "order" s = None) logNames in
  let actualLogs :=
    if Config.withoutOrderLogs (config sim) then withoutOrderLogs else logNames in
  let logDir :=
    match Config.logDir (config sim) with
    | Some d => if bool_decide (d = EmptyString) then "." else d
    | None => "."
    end in
  modify (set_logs
    (foldl (λ logs name,
              <[name := Log_setHeader (logHeaders !! name)
                          (Log_new (logDir +:+ "/" +:+ name +:+ ".csv"))]> logs)
           ∅ actualLogs)).

Definition xDefaults : gmap string Cell :=
  {[ "goods" := Str "X"; "money" := Str "money" ]}.

Definition initMarket : M unit :=
  sim ← get;
  (* Object.assign({}, xDefaults, sim.config.xMarket): the later source wins *)
  on_outside (Market_new (default ∅ (Config.xMarket (config sim)) ∪ xDefaults));;
  modify (set_orderListeners (negb (Config.withoutOrderLogs (config sim)))).

Definition newAgentFactory (name : option string) (options : AgentOptions) : M nat :=
  sim ← get;
  match AgentFactoryWarehouse_new name options (outside sim) with
  | Some (a, e) => modify (set_outside e);; ret a
  | None => throw (TypeError "AgentFactoryWarehouse[name] is not a constructor")
  end.

Definition teachAgent (A : nat) : M unit := on_outside (agent_learn A).

(** [array[i % array.length]]; undefined on an empty array. *)
Definition rotation {A} (array : list A) (i : nat) : option A :=
  if bool_decide (length array = 0%nat) then None
  else array !! (i mod length array)%nat.

Definition with_rate (common : AgentOptions) (r : option Qc) : AgentOptions :=
  mkAgentOptions (opt_integer common) (opt_ignoreBudgetConstraint common)
    (opt_period_duration common) (minPrice common) (maxPrice common) r.

Definition newBuyerAgent (i : nat) (common : AgentOptions) : M nat :=
  sim ← get;
  match Config.buyerRate (config sim) with
  | None => throw (TypeError "sim.config.buyerRate is undefined")
  | Some buyerRate =>
      a ← newAgentFactory
            (rotation (Config.buyerAgentType (config sim)) i)
            (with_rate common (rotation buyerRate i));
      teachAgent a;;
      ret a
  end.

Definition newSellerAgent (i : nat) (common : AgentOptions) : M nat :=
  sim ← get;
  match Config.sellerRate (config sim) with
  | None => throw (TypeError "sim.config.sellerRate is undefined")
  | Some sellerRate =>
      a ← newAgentFactory
            (rotation (Config.sellerAgentType (config sim)) i)
            (with_rate common (rotation sellerRate i));
      teachAgent a;;
      ret a
  end.

(** [for(let i=0,l=n;i<l;++i) body(i)]. *)
Fixpoint for_each (indices : list nat) (body : nat → M unit) : M unit :=
  match indices with
  | [] => ret ()
  | i :: rest => body i;; for_each rest body
  end.

Definition below (l : Qc) : list nat := seq 0 (Z.to_nat (Qceiling l)).

Definition initAgents : M unit :=
  sim ← get;
  let conf := config sim in  (* const config = sim.config *)
  on_outside (Pool_new pool);;
  on_outside (Pool_new buyersPool);;
  on_outside (Pool_new sellersPool);;
  numberOfBuyers ←
    (if truthy (Config.numberOfBuyers conf)
     then ret (default 0 (Config.numberOfBuyers conf))
     else match Config.buyerValues conf with
          | Some values => ret #(Z.of_nat (length values))
          | None => throw (TypeError "config.buyerValues is undefined")
          end);
  numberOfSellers ←
    (if truthy (Config.numberOfSellers conf)
     then ret (default 0 (Config.numberOfSellers conf))
     else match Config.sellerCosts conf with
          | Some costs => ret #(Z.of_nat (length costs))
          | None => throw (TypeError "config.sellerCosts is undefined")
          end);
  modify (set_numbers numberOfBuyers numberOfSellers 0);;
  modify (λ sim, set_config
            (Config.set_buyerRate
               (Some (default [1] (positiveNumberArray
                                     (Config.buyerRate (config sim)))))
               (config sim)) sim);;
  modify (λ sim, set_config
            (Config.set_sellerRate
               (Some (default [1] (positiveNumberArray
                                     (Config.sellerRate (config sim)))))
               (config sim)) sim);;
  if bool_decide (numberOfBuyers = 0) || bool_decide (numberOfSellers = 0)
  then throw (Error "single-market-robot-simulation: can not determine numberOfBuyers and/or numberOfSellers ")
  else
    modify (set_numbers numberOfBuyers numberOfSellers
              (numberOfBuyers + numberOfSellers));;
    let common :=
      {| opt_integer := Config.integer conf;
         opt_ignoreBudgetConstraint := Config.ignoreBudgetConstraint conf;
         opt_period_duration := or_else (Config.periodDuration conf) #1000;
         minPrice := Config.L conf;
         maxPrice := Config.H conf;
         rate := None |} in
    modify (set_periodDuration (opt_period_duration common));;
    for_each (below numberOfBuyers) (λ i,
      a ← newBuyerAgent i common;
      on_outside (Pool_push buyersPool a);;
      on_outside (Pool_push pool a));;
    for_each (below numberOfSellers) (λ i,
      a ← newSellerAgent i common;
      on_outside (Pool_push sellersPool a);;
      on_outside (Pool_push pool a));;
    on_outside (Pool_distribute buyersPool "values" "X" (Config.buyerValues conf));;
    on_outside (Pool_distribute sellersPool "costs" "X" (Config.sellerCosts conf)).

(** The object before the constructor body runs: [this.config = config] is
    done, nothing else is assigned yet. *)
Definition blank (config : Config.t) (e : E) : Simulation :=
  {| config := config; logs := ∅; outside := e; orderListeners := false;
     numberOfBuyers := 0; numberOfSellers := 0; numberOfAgents := 0;
     periodDuration := 0; period := 0; periodTradePrices := [];
     realtime := None; realtimeIntervalId := None;
     maximumPossibleGainsFromTrade := None |}.

(** [new Simulation(config)] in collaborator state [e]: the completion and
    the object (with the caller's configuration in its [config] field). *)
Definition constructor (config : Config.t) (e : E) : Completion unit * Simulation :=
  (initLogs;;
   initMarket;;
   initAgents;;
   modify (set_period 0);;
   modify (set_periodTradePrices [])) (blank config e).

(** The closures teachAgent gives to a KaplanSniperAgent. *)
Definition getJuicyBidPrice (sim : Simulation) : option Cell :=
  match logs sim !! "ohlc" with
  | Some ohlc => Log_lastByKey "high" ohlc
  | None => None
  end.

Definition getJuicyAskPrice (sim : Simulation) : option Cell :=
  match logs sim !! "ohlc" with
  | Some ohlc => Log_lastByKey "low" ohlc
  | None => None
  end.

(** ** Notions used in the statements *)

(** What a listener of the market leaves alone: the configuration, the
    period counter, the real-time bookkeeping and the four logs written at
    the end of a period. *)
Definition quiet : relation Simulation :=
  λ sim sim',
    config sim' = config sim
    ∧ period sim' = period sim
    ∧ periodDuration sim' = periodDuration sim
    ∧ realtime sim' = realtime sim
    ∧ realtimeIntervalId sim' = realtimeIntervalId sim
    ∧ maximumPossibleGainsFromTrade sim' = maximumPossibleGainsFromTrade sim
    ∧ ∀ name, name ∈ ["profit"; "ohlc"; "volume"; "effalloc"]%string →
        logs sim' !! name = logs sim !! name.

(** Between [sim] and [sim'] some trades were recorded: as many rows were
    added to the trade log (when there is one) as prices to
    periodTradePrices. *)
Definition trades_recorded : relation Simulation :=
  λ sim sim',
    ∃ prices,
      periodTradePrices sim' = periodTradePrices sim ++ prices
      ∧ ∀ l, logs sim !! "trade" = Some l →
          ∃ l' rows,
            logs sim' !! "trade" = Some l'
            ∧ data l' = data l ++ rows
            ∧ length rows = length prices.

(** [config.numberOfBuyers || config.buyerValues.length] (and the same for
    the sellers): the count, or [None] when reading [length] throws. *)
Definition agent_count (n : option Qc) (values : option (list Qc)) : option Qc :=
  if truthy n then n else (λ v, #(Z.of_nat (length v))) <$> values.

(** The fields that initAgents computes once and the bookkeeping nothing in
    the constructor touches. *)
Definition same_numbers : relation Simulation :=
  λ sim sim',
    numberOfBuyers sim' = numberOfBuyers sim
    ∧ numberOfSellers sim' = numberOfSellers sim
    ∧ numberOfAgents sim' = numberOfAgents sim
    ∧ periodDuration sim' = periodDuration sim
    ∧ realtimeIntervalId sim' = realtimeIntervalId sim
    ∧ maximumPossibleGainsFromTrade sim' = maximumPossibleGainsFromTrade sim.

(** [n] calls of runPeriod in a row, each with a falsy argument. *)
Fixpoint runPeriod_times (n : nat) (sim : Simulation) : Simulation :=
  match n with
  | O => sim
  | S n' => runPeriod_times n' (runPeriod false sim).2
  end.


(** The value a call returns in state [sim]. *)
Definition maximumGains (sim : Simulation) : Qc :=
  if truthy (maximumPossibleGainsFromTrade sim)
  then default 0 (maximumPossibleGainsFromTrade sim)
  else
    match Config.buyerValues (config sim), Config.sellerCosts (config sim) with
    | Some buyerValues, Some sellerCosts =>
        gains_loop (Array_sort (λ a b, b - a) buyerValues)
                   (Array_sort (λ a b, a - b) sellerCosts) 0
    | _, _ => 0
    end.

(** The state in which logPeriod asks for the maximum gains. *)
Definition before_effalloc (sim : Simulation) : Simulation :=
  written "volume"
    (Some [Num (period sim); Num #(Z.of_nat (length (periodTradePrices sim)))])
    (written "ohlc" (ohlc sim)
       (written "profit"
          (Some (Num <$> ((λ A, money (inventory A)) <$> pool_agents (outside sim))))
          sim)).

(** The state after the effalloc step of logPeriod. *)
Definition after_effalloc (sim : Simulation) : Simulation :=
  let s := before_effalloc sim in
  if bool_decide (is_Some (logs sim !! "effalloc"))
  then
    let finalMoney := (λ A, money (inventory A)) <$> pool_agents (outside sim) in
    let s1 := if truthy (maximumPossibleGainsFromTrade s) then s
              else set_maximumPossibleGainsFromTrade (Some (maximumGains s)) s in
    if bool_decide (0 < maximumGains s)
    then written "effalloc"
           (Some [Num (period sim);
                  Num (#100 * (foldl Qcplus 0 finalMoney / maximumGains s))]) s1
    else s1
  else s.

(** [m] takes every state to a state related to it by [R], whether it
    returns or throws. *)
Definition preserves {A} (R : relation Simulation) (m : M A) : Prop :=
  ∀ sim, R sim (m sim).2.

Definition same_config : relation Simulation :=
  λ sim sim', config sim' = config sim.

(** [c'] is [c] but for its two rate arrays. *)
Definition but_for_rates (c c' : Config.t) : Prop :=
  ∃ buyerRate sellerRate,
    c' = Config.set_buyerRate buyerRate (Config.set_sellerRate sellerRate c).

Definition config_but_for_rates : relation Simulation :=
  λ sim sim', but_for_rates (config sim) (config sim').

(** The configuration once initAgents has written the two rate arrays. *)
Definition rates_written (c : Config.t) : Config.t :=
  Config.set_sellerRate
    (Some (default [1] (positiveNumberArray (Config.sellerRate c))))
    (Config.set_buyerRate
       (Some (default [1] (positiveNumberArray (Config.buyerRate c)))) c).

Definition same_logs : relation Simulation := λ sim sim', logs sim' = logs sim.

(** A log as initLogs leaves it. *)
Definition fresh_log (l : Log) (name : string) : Prop :=
  data l = match logHeaders !! name with Some h => [h] | None => [] end.

(** What the listeners leave alone while the agents run. *)
Definition steady : relation Simulation :=
  λ sim sim',
    config sim' = config sim
    ∧ period sim' = period sim
    ∧ logs sim' !! "volume" = logs sim !! "volume".

(** The state in which runPeriod lets the agents run. *)
Definition period_begun (sim : Simulation) : Simulation :=
  set_outside
    (xMarket_clear (pool_initPeriod (period sim + 1) (outside sim)))
    (set_period (period sim + 1) sim).

(** The rows (first, n0), (first + 1, n1), ... of the volume log. *)
Fixpoint volume_rows (first : nat) (counts : list Qc) : list Row :=
  match counts with
  | [] => []
  | n :: counts' => [Num #(Z.of_nat first); Num n] :: volume_rows (S first) counts'
  end.

Definition with_values (buyerValues sellerCosts : list Qc) (sim : Simulation)
  : Simulation :=
  set_config (Config.set_buyerValues (Some buyerValues)
                (Config.set_sellerCosts (Some sellerCosts) (config sim))) sim.

(** [x] may stay before [y] in an array sorted with [compareFn]. *)
Definition before (compareFn : Qc → Qc → Qc) : relation Qc :=
  λ x y, compareFn x y ≤ 0.

End Simulation.

(** * A scripted market

    A small instance of the collaborators, to run the simulation on concrete
    inputs: the agents are given, every call of syncRun plays the events of
    [script], and the clock stands still. *)

Module Scripted.

Record World := mkWorld {
  agents : list Agent;
  book : list (list Qc);        (* xMarket.a *)
  idCol : option nat;           (* xMarket.o.idCol *)
  script : list MarketEvent;
  endTime : option Qc;
  clock : Qc;                   (* Date.now() *)
  intervals : list nat          (* the interval timers that are set *)
}.

Definition with_intervals (l : list nat) (w : World) : World :=
  mkWorld (agents w) (book w) (idCol w) (script w) (endTime w) (clock w) l.

Fixpoint play (events : list MarketEvent) (w : World) : Run World :=
  match events with
  | [] => Done w
  | ev :: rest => Emit ev w (play rest)
  end.

#[global] Instance collaborators : Collaborators World := {|
  positiveNumberArray x :=
    match x with
    | Some l => if bool_decide (l ≠ [] ∧ Forall (Qclt 0) l) then Some l else None
    | None => None
    end;
  Market_new _ w := w;
  xMarket_clear w := w;
  xMarket_o_idCol := idCol;
  xMarket_a := book;
  Pool_new _ w := w;
  AgentFactoryWarehouse_new name _ w :=
    match name with Some _ => Some (0%nat, w) | None => None end;
  agent_learn _ w := w;
  Pool_push _ _ w := w;
  Pool_distribute _ _ _ _ w := w;
  pool_agents := agents;
  pool_agentsById w := list_to_map ((λ a, (id a, a)) <$> agents w);
  pool_initPeriod _ w := w;
  pool_endPeriod w := w;
  pool_endTime := endTime;
  pool_trade _ w := w;
  pool_syncRun _ _ _ w := play (script w) w;
  pool_runAsPromise _ _ _ _ w := w;
  Date_now := clock;
  setInterval _ _ w :=
    let i := S (length (intervals w)) in
    Some (i, with_intervals (i :: intervals w) w);
  clearInterval i w := with_intervals (filter (λ j, j ≠ i) (intervals w)) w
|}.

(** One buyer (id 11, unit value 80) and one seller (id 12, unit cost 20);
    their orders are rows 0 and 1 of the book, the id in column 1. *)
Definition buyer : Agent :=
  {| id := #11; inventory := {| X := 0; money := #30 |};
     period_startTime := 0;
     unitValueFunction := λ _ _, #80; unitCostFunction := λ _ _, 0 |}.

Definition seller : Agent :=
  {| id := #12; inventory := {| X := #1; money := #30 |};
     period_startTime := 0;
     unitValueFunction := λ _ _, 0; unitCostFunction := λ _ _, #20 |}.

(** A trade of one unit at price 50. *)
Definition trade50 : tradespec.t :=
  {| tradespec.t_ := #3400; tradespec.totalQ := 1;
     tradespec.buyA := [0%nat]; tradespec.sellA := [1%nat];
     tradespec.prices := [ #50] |}.

(** The same event reporting two units. *)
Definition trade_totalQ2 : tradespec.t :=
  {| tradespec.t_ := #3400; tradespec.totalQ := #2;
     tradespec.buyA := [0%nat]; tradespec.sellA := [1%nat];
     tradespec.prices := [ #50] |}.

(** An order of an agent the pool does not know. *)
Definition stray_order : order.t :=
  {| order.t_ := #3400; order.id := #99;
     order.buyPrice := Some #50; order.sellPrice := None |}.

Definition world : World :=
  {| agents := [buyer; seller];
     book := [[ #3400; #11]; [ #3390; #12]];
     idCol := Some 1%nat;
     script := [preorder stray_order; trade trade50];
     endTime := Some #1000;
     clock := #5000;
     intervals := [] |}.

Definition configuration : Config.t :=
  {| Config.periods := #2;
     Config.periodDuration := Some #1000;
     Config.buyerAgentType := ["ZIAgent"];
     Config.sellerAgentType := ["ZIAgent"];
     Config.buyerRate := None;
     Config.sellerRate := None;
     Config.buyerValues := Some [ #80];
     Config.sellerCosts := Some [ #20];
     Config.numberOfBuyers := None;
     Config.numberOfSellers := None;
     Config.xMarket := None;
     Config.integer := false;
     Config.ignoreBudgetConstraint := false;
     Config.keepPreviousOrders := false;
     Config.L := Some 1;
     Config.H := Some #200;
     Config.silent := true;
     Config.withoutOrderLogs := false;
     Config.realtime := false;
     Config.logDir := None;
     Config.logToFileSystem := false |}.

(** [new Simulation(configuration)]. *)
Definition sim0 : @Simulation World := (constructor configuration world).2.

(** The simulation in its third period. *)
Definition sim3 : @Simulation World := set_period #3 sim0.

Definition log_of (name : string) (sim : @Simulation World) : Log :=
  default (Log_new EmptyString) (logs sim !! name).

(** The same market paced by the wall clock: a new simulation, and the
    simulation once a first real-time period has been started. *)
Definition realtime_configuration : Config.t :=
  Config.mk #2 (Some #1000) ["ZIAgent"] ["ZIAgent"] None None
    (Some [ #80]) (Some [ #20]) None None None false false false
    (Some 1) (Some #200) true false true None false.

Definition realtime_sim0 : @Simulation World :=
  (constructor realtime_configuration world).2.

Definition realtime_sim1 : @Simulation World :=
  (runPeriod false realtime_sim0).2.

(** A market without gains from trade: the only value is below the only
    cost. *)
Definition no_gains_configuration : Config.t :=
  Config.set_buyerValues (Some [ #1])
    (Config.set_sellerCosts (Some [ #2]) configuration).

Definition no_gains_sim : @Simulation World :=
  (constructor no_gains_configuration world).2.

(** An order to buy at 70 from the buyer, and an order to sell at 30 from
    the seller. *)
Definition buy_order : order.t :=
  {| order.t_ := #3400; order.id := #11;
     order.buyPrice := Some #70; order.sellPrice := None |}.

Definition sell_order : order.t :=
  {| order.t_ := #3390; order.id := #12;
     order.buyPrice := None; order.sellPrice := Some #30 |}.

(** The third period once trades at 50, 70 and 40 have been recorded. *)
Definition sim3_traded : @Simulation World :=
  set_periodTradePrices [ #50; #70; #40] sim3.

(** The simulation when its two periods have been run. *)
Definition finished_sim : @Simulation World :=
  (run 2 (Some {| sync := Some true; update := None; delay := None |}) sim0).2.

(** The same market with a pool that gives no end time. *)
Definition world_without_end : World :=
  mkWorld (agents world) (book world) (idCol world) (script world) None
    (clock world) (intervals world).

Definition realtime_sim_without_end : @Simulation World :=
  (constructor realtime_configuration world_without_end).2.

(** The started real-time period when the clock has passed its end. *)
Definition with_clock (t : Qc) (w : World) : World :=
  mkWorld (agents w) (book w) (idCol w) (script w) (endTime w) t (intervals w).

Definition realtime_sim_late : @Simulation World :=
  set_outside (with_clock #2000000 (outside realtime_sim1)) realtime_sim1.

(** A configuration with an empty array of buyer values, and one with no
    array of buyer values at all. *)
Definition empty_side_configuration : Config.t :=
  Config.set_buyerValues (Some []) configuration.

Definition countless_configuration : Config.t :=
  Config.set_buyerValues None configuration.

End Scripted.

(** * Properties *)

Section properties.
Context {E : Type} `{!Collaborators E}.

#[local] Abbreviation Simulation := (@Simulation E).
#[local] Abbreviation M := (@M E).
#[local] Abbreviation same_config := (@same_config E).
#[local] Abbreviation config_but_for_rates := (@config_but_for_rates E).
#[local] Abbreviation same_logs := (@same_logs E).
#[local] Abbreviation steady := (@steady E).
#[local] Abbreviation run_parameter := (@run_parameter E).
Implicit Types sim s : Simulation.

(** ** The monad *)

Lemma bind_normal {A B} (m : M A) (k : A → M B) sim a sim' :
  m sim = (Normal a, sim') → (m ≫= k) sim = k a sim'.
Proof. intros Hm. unfold mbind, M_bind, bind. by rewrite Hm. Qed.

Lemma bind_throw {A B} (m : M A) (k : A → M B) sim e sim' :
  m sim = (Throw e, sim') → (m ≫= k) sim = (Throw e, sim').
Proof. intros Hm. unfold mbind, M_bind, bind. by rewrite Hm. Qed.

Lemma write_log_present name row l sim :
  logs sim !! name = Some l →
  write_log name row sim
  = (Normal (), set_logs (<[name := Log_write row l]> (logs sim)) sim).
Proof. intros Hl. unfold write_log, modify, written. by rewrite Hl. Qed.

Lemma truthy_Some q : q ≠ 0 → truthy (Some q) = true.
Proof. intros Hq. simpl. by apply bool_decide_eq_true. Qed.

(** ** logTrade *)

(** C2. A trade event whose totalQ is not 1, whose buyA or sellA does not
    hold exactly one index, or whose first price is missing or zero makes
    logTrade throw, and the simulation is left as it was: nothing is added to
    periodTradePrices (nor to any log). *)
Theorem logTrade_throws_on_malformed_trade (ts : tradespec.t) (sim : Simulation) :
  tradespec.totalQ ts ≠ 1
  ∨ length (tradespec.buyA ts) ≠ 1%nat
  ∨ length (tradespec.sellA ts) ≠ 1%nat
  ∨ tradespec.prices ts !! 0%nat = None
  ∨ tradespec.prices ts !! 0%nat = Some 0 →
  ∃ e, logTrade ts sim = (Throw e, sim).
Proof.
  intros Hbad. unfold logTrade.
  rewrite (bind_normal get _ sim sim sim) by done.
  destruct (xMarket_o_idCol (outside sim)) as [idCol|]; [|by eexists].
  destruct (bool_decide (tradespec.totalQ ts ≠ 1)) eqn:HQ; [by eexists|].
  destruct (bool_decide (length (tradespec.buyA ts) ≠ 1%nat)) eqn:HB; [by eexists|].
  destruct (bool_decide (length (tradespec.sellA ts) ≠ 1%nat)) eqn:HS; [by eexists|].
  simpl.
  apply bool_decide_eq_false in HQ, HB, HS.
  destruct Hbad as [?|[?|[?|Hprice]]]; [done..|].
  destruct (_ ≫= _) as [buyOrder|]; [|by eexists].
  destruct (buyOrder !! idCol) as [buyerid|]; [|by eexists].
  destruct (_ ≫= _) as [sellOrder|]; [|by eexists].
  destruct (sellOrder !! idCol) as [sellerid|]; [|by eexists].
  assert (truthy (tradespec.prices ts !! 0%nat) = false) as ->; [|by eexists].
  by destruct Hprice as [->| ->].
Qed.

(** C7. A valid single-unit trade appends its price to periodTradePrices and
    writes the row (period, t, t - period * periodDuration, price, buyer id,
    buyer's unit value at its inventory, value - price, seller id, seller's
    unit cost at its inventory, price - cost) to the trade log. *)
Theorem logTrade_writes_trade_row (ts : tradespec.t) (sim : Simulation)
    (idCol i j : nat) (buyOrder sellOrder : list Qc) (buyerid sellerid price : Qc)
    (buyer seller : Agent) (l : Log) :
  xMarket_o_idCol (outside sim) = Some idCol →
  tradespec.totalQ ts = 1 →
  tradespec.buyA ts = [i] →
  tradespec.sellA ts = [j] →
  xMarket_a (outside sim) !! i = Some buyOrder →
  buyOrder !! idCol = Some buyerid →
  xMarket_a (outside sim) !! j = Some sellOrder →
  sellOrder !! idCol = Some sellerid →
  tradespec.prices ts !! 0%nat = Some price →
  price ≠ 0 →
  pool_agentsById (outside sim) !! buyerid = Some buyer →
  pool_agentsById (outside sim) !! sellerid = Some seller →
  logs sim !! "trade" = Some l →
  let value := unitValueFunction buyer "X" (inventory buyer) in
  let cost := unitCostFunction seller "X" (inventory seller) in
  ∃ sim',
    logTrade ts sim = (Normal (), sim')
    ∧ periodTradePrices sim' = periodTradePrices sim ++ [price]
    ∧ data <$> logs sim' !! "trade"
      = Some (data l ++
              [Num <$> [ period sim; tradespec.t_ ts;
                         tradespec.t_ ts - period sim * periodDuration sim;
                         price; buyerid; value; value - price;
                         sellerid; cost; price - cost ]]).
Proof.
  intros HidCol HQ HB HS Hi Hbid Hj Hsid Hp Hp0 Hbuyer Hseller Hl value cost.
  unfold logTrade.
  rewrite (bind_normal get _ sim sim sim) by done.
  rewrite HidCol, HQ, HB, HS. simpl.
  rewrite Hi. simpl. rewrite Hbid, Hj. simpl. rewrite Hsid, Hp.
  rewrite truthy_Some by done. simpl.
  rewrite Hbuyer, Hseller.
  erewrite bind_normal by (unfold modify; reflexivity).
  erewrite write_log_present by (simpl; exact Hl).
  eexists. split; [reflexivity|]. split; [done|].
  simpl. by rewrite lookup_insert_eq.
Qed.

(** ** logOrder *)

(** C9. An order whose agent is not in agentsById, or which has neither a
    usable buy price nor a usable sell price, is skipped: logOrder returns
    normally and the simulation (every log included) is as before.  So it is
    for the listeners of 'preorder' and 'reject'. *)
Theorem logOrder_skips_unusable_order (o : order.t) (sim : Simulation) :
  pool_agentsById (outside sim) !! order.id o = None
  ∨ (truthy (order.buyPrice o) = false ∧ truthy (order.sellPrice o) = false) →
  (∀ prefix, logOrder prefix o sim = (Normal (), sim))
  ∧ on_event (preorder o) sim = (Normal (), sim)
  ∧ on_event (reject o) sim = (Normal (), sim).
Proof.
  intros Hskip.
  assert (∀ prefix, logOrder prefix o sim = (Normal (), sim)) as Hlog.
  { intros prefix. unfold logOrder.
    rewrite (bind_normal get _ sim sim sim) by done.
    destruct Hskip as [-> | [-> ->]]; [done|].
    by destruct (pool_agentsById (outside sim) !! order.id o). }
  split; [done|].
  split; simpl; rewrite (bind_normal get _ sim sim sim) by done;
    by destruct (orderListeners sim).
Qed.

(** ** Writing a log *)

Lemma logs_written name row sim name' :
  logs (written name row sim) !! name'
  = if decide (name = name') then Log_write row <$> logs sim !! name
    else logs sim !! name'.
Proof.
  unfold written. destruct (logs sim !! name) as [l|] eqn:Hl; simpl.
  - rewrite lookup_insert. by case_decide.
  - case_decide; by subst; rewrite ?Hl.
Qed.

Lemma written_frame name row sim :
  config (written name row sim) = config sim
  ∧ outside (written name row sim) = outside sim
  ∧ period (written name row sim) = period sim
  ∧ periodTradePrices (written name row sim) = periodTradePrices sim
  ∧ maximumPossibleGainsFromTrade (written name row sim)
    = maximumPossibleGainsFromTrade sim.
Proof. unfold written. by destruct (logs sim !! name). Qed.

(** ** getMaximumPossibleGainsFromTrade *)

Lemma getMaximumPossibleGainsFromTrade_run sim :
  getMaximumPossibleGainsFromTrade sim
  = (Normal (maximumGains sim),
     if truthy (maximumPossibleGainsFromTrade sim) then sim
     else set_maximumPossibleGainsFromTrade (Some (maximumGains sim)) sim).
Proof.
  unfold getMaximumPossibleGainsFromTrade, maximumGains.
  rewrite (bind_normal get _ sim sim sim) by done.
  by destruct (truthy (maximumPossibleGainsFromTrade sim)).
Qed.

Lemma maximumGains_ext sim sim' :
  config sim' = config sim →
  maximumPossibleGainsFromTrade sim' = maximumPossibleGainsFromTrade sim →
  maximumGains sim' = maximumGains sim.
Proof. unfold maximumGains. by intros -> ->. Qed.

(** ** logPeriod *)

Lemma Math_max_spec x xs :
  Math_max x xs ∈ x :: xs ∧ ∀ p, p ∈ x :: xs → p ≤ Math_max x xs.
Proof.
  unfold Math_max. revert x. induction xs as [|y xs IH]; intros x; simpl.
  - split; [by left|]. intros p ->%list_elem_of_singleton. apply Qcle_refl.
  - destruct (IH (Qc_max x y)) as [Hin Hle]. unfold Qc_max in *.
    assert (Hhead := Hle _ (list_elem_of_here _ _)).
    case_bool_decide as Hxy.
    + split; [by right|]. intros p [->|Hp]%elem_of_cons.
      * by trans y.
      * by apply Hle.
    + split.
      { apply elem_of_cons in Hin as [->|Hin]; [by left|by do 2 right]. }
      intros p [->|[->|Hp]%elem_of_cons]%elem_of_cons; [done| |].
      * trans x; [|done]. apply Qclt_le_weak. by apply Qclt_nge.
      * apply Hle. by right.
Qed.

Lemma Math_min_spec x xs :
  Math_min x xs ∈ x :: xs ∧ ∀ p, p ∈ x :: xs → Math_min x xs ≤ p.
Proof.
  unfold Math_min. revert x. induction xs as [|y xs IH]; intros x; simpl.
  - split; [by left|]. intros p ->%list_elem_of_singleton. apply Qcle_refl.
  - destruct (IH (Qc_min x y)) as [Hin Hle]. unfold Qc_min in *.
    assert (Hhead := Hle _ (list_elem_of_here _ _)).
    case_bool_decide as Hxy.
    + split.
      { apply elem_of_cons in Hin as [->|Hin]; [by left|by do 2 right]. }
      intros p [->|[->|Hp]%elem_of_cons]%elem_of_cons; [done| |].
      * by trans x.
      * apply Hle. by right.
    + split; [by right|]. intros p [->|Hp]%elem_of_cons.
      * trans y; [done|]. apply Qclt_le_weak. by apply Qclt_nge.
      * by apply Hle.
Qed.

Lemma before_effalloc_frame sim :
  config (before_effalloc sim) = config sim
  ∧ maximumPossibleGainsFromTrade (before_effalloc sim)
    = maximumPossibleGainsFromTrade sim.
Proof.
  unfold before_effalloc.
  repeat match goal with
         | |- context [written ?n ?r ?s] =>
             destruct (written_frame n r s) as (-> & _ & _ & _ & ->)
         end.
  done.
Qed.

Lemma logs_before_effalloc sim name :
  name ≠ "profit" → name ≠ "ohlc" → name ≠ "volume" →
  logs (before_effalloc sim) !! name = logs sim !! name.
Proof.
  intros. unfold before_effalloc. rewrite !logs_written.
  repeat case_decide; by subst.
Qed.

Lemma logPeriod_run sim :
  logPeriod sim = (Normal (), set_periodTradePrices [] (after_effalloc sim)).
Proof.
  unfold logPeriod, after_effalloc.
  rewrite (bind_normal get _ sim sim sim) by done.
  do 3 (erewrite bind_normal by (unfold write_log, modify; reflexivity)).
  fold (before_effalloc sim).
  destruct (bool_decide (is_Some (logs sim !! "effalloc"))).
  - erewrite bind_normal; [reflexivity|].
    erewrite bind_normal by apply getMaximumPossibleGainsFromTrade_run.
    by destruct (bool_decide (0 < maximumGains (before_effalloc sim))).
  - by erewrite bind_normal.
Qed.

Lemma logs_after_effalloc sim name :
  name ≠ "effalloc" →
  logs (after_effalloc sim) !! name = logs (before_effalloc sim) !! name.
Proof.
  intros Hname. unfold after_effalloc.
  destruct (bool_decide (is_Some (logs sim !! "effalloc"))); [|done].
  destruct (bool_decide (0 < maximumGains (before_effalloc sim)));
    rewrite ?logs_written; repeat case_decide; try done;
    by destruct (truthy (maximumPossibleGainsFromTrade (before_effalloc sim))).
Qed.

(** C5. At the end of a period without trades logPeriod writes no row to
    the ohlc log and the row (period, 0) to the volume log; after trades the
    ohlc row is (period, first price, highest price, lowest price, last
    price). *)
Theorem logPeriod_ohlc_and_volume (sim : Simulation) (lo lv : Log) :
  logs sim !! "ohlc" = Some lo →
  logs sim !! "volume" = Some lv →
  ∃ sim',
    logPeriod sim = (Normal (), sim')
    ∧ (periodTradePrices sim = [] →
       logs sim' !! "ohlc" = Some lo
       ∧ data <$> logs sim' !! "volume"
         = Some (data lv ++ [[Num (period sim); Num 0]]))
    ∧ (∀ o rest, periodTradePrices sim = o :: rest →
       ∃ h l c front,
         data <$> logs sim' !! "ohlc"
         = Some (data lo ++ [Num <$> [period sim; o; h; l; c]])
         ∧ o :: rest = front ++ [c]
         ∧ h ∈ o :: rest ∧ (∀ p, p ∈ o :: rest → p ≤ h)
         ∧ l ∈ o :: rest ∧ (∀ p, p ∈ o :: rest → l ≤ p)).
Proof.
  intros Ho Hv. eexists. split; [apply logPeriod_run|].
  assert (∀ name, name ≠ "effalloc" →
     logs (set_periodTradePrices [] (after_effalloc sim)) !! name
     = logs (before_effalloc sim) !! name) as Hlogs.
  { intros name Hname. simpl. by apply logs_after_effalloc. }
  rewrite !Hlogs by done. unfold before_effalloc. rewrite !logs_written.
  repeat (case_decide; try done); [].
  split.
  - intros Hnil. unfold ohlc. rewrite Hnil, Ho, Hv. split; [done|].
    simpl. repeat f_equal. by apply Qc_is_canon.
  - intros o rest Hprices. unfold ohlc. rewrite Hprices, Ho. simpl.
    destruct (Math_max_spec o rest) as [Hmax1 Hmax2].
    destruct (Math_min_spec o rest) as [Hmin1 Hmin2].
    destruct (exists_last (l := o :: rest)) as (front & c & Hsplit); [done|].
    exists (Math_max o rest), (Math_min o rest), c, front.
    split; [|by rewrite Hsplit in *].
    do 4 f_equal. simpl in Hsplit.
    assert (length rest - 0 = length front)%nat as ->.
    { apply (f_equal length) in Hsplit. rewrite length_app in Hsplit.
      simpl in Hsplit. lia. }
    rewrite Hsplit. by rewrite list_lookup_middle.
Qed.

(** C6. At the end of a period a row is written to the effalloc log exactly
    when getMaximumPossibleGainsFromTrade() is positive, and the row is
    (period, 100 * (finalMoneySum / maximum gains)), the operations in the
    order of the code: finalMoneySum is the money of the agents added up
    from 0 in the order of the pool, it is divided by the maximum gains, and
    the quotient is multiplied by 100. *)
Theorem logPeriod_effalloc (sim : Simulation) (le : Log) :
  logs sim !! "effalloc" = Some le →
  ∃ g s1 sim',
    getMaximumPossibleGainsFromTrade sim = (Normal g, s1)
    ∧ logPeriod sim = (Normal (), sim')
    ∧ (0 < g →
       data <$> logs sim' !! "effalloc"
       = Some (data le ++
               [[Num (period sim);
                 Num (#100 * (foldl Qcplus 0
                                ((λ A, money (inventory A))
                                   <$> pool_agents (outside sim)) / g))]]))
    ∧ (¬ 0 < g → logs sim' !! "effalloc" = Some le).
Proof.
  intros He. do 3 eexists.
  split; [apply getMaximumPossibleGainsFromTrade_run|].
  split; [apply logPeriod_run|].
  destruct (before_effalloc_frame sim) as [Hc Hm].
  assert (maximumGains (before_effalloc sim) = maximumGains sim) as Hg
    by by apply maximumGains_ext.
  assert (logs (before_effalloc sim) !! "effalloc" = Some le) as He'
    by by rewrite logs_before_effalloc.
  simpl. unfold after_effalloc.
  rewrite bool_decide_eq_true_2 by by rewrite He.
  rewrite Hg.
  split; intros Hpos.
  - rewrite bool_decide_eq_true_2 by done.
    rewrite logs_written. rewrite decide_True by done.
    assert (logs (if truthy (maximumPossibleGainsFromTrade (before_effalloc sim))
                  then before_effalloc sim
                  else set_maximumPossibleGainsFromTrade
                         (Some (maximumGains sim)) (before_effalloc sim))
            !! "effalloc" = Some le) as ->.
    { by destruct (truthy _). }
    reflexivity.
  - rewrite bool_decide_eq_false_2 by done.
    by destruct (truthy _).
Qed.

(** ** Frames: what a method leaves alone *)

Section preserves.
Context (R : relation Simulation) `{!PreOrder R}.

Lemma preserves_ret {A} (a : A) : preserves R (ret a).
Proof. by intros sim. Qed.

Lemma preserves_mret {A} (a : A) : preserves R (mret a).
Proof. by intros sim. Qed.

Lemma preserves_throw {A} e : preserves R (throw (A := A) e).
Proof. by intros sim. Qed.

Lemma preserves_get : preserves R get.
Proof. by intros sim. Qed.

Lemma preserves_modify f : (∀ sim, R sim (f sim)) → preserves R (modify f).
Proof. intros Hf sim. apply Hf. Qed.

Lemma preserves_bind {A B} (m : M A) (k : A → M B) :
  preserves R m → (∀ a, preserves R (k a)) → preserves R (m ≫= k).
Proof.
  intros Hm Hk sim. unfold mbind, M_bind, bind.
  specialize (Hm sim). destruct (m sim) as [[a|e] sim1]; [|done].
  by trans sim1; [|apply Hk].
Qed.

Lemma preserves_listen :
  (∀ e sim, R sim (set_outside e sim)) →
  (∀ ev, preserves R (on_event ev)) →
  ∀ r, preserves R (listen r).
Proof.
  intros Hout Hev. induction r as [e|ev e k IH]; simpl.
  - by apply preserves_modify.
  - apply preserves_bind; [by apply preserves_modify|intros _].
    apply preserves_bind; [apply Hev|intros _].
    apply preserves_bind; [apply preserves_get|intros sim]. apply IH.
Qed.

Lemma preserves_for_each indices body :
  (∀ i, preserves R (body i)) → preserves R (for_each indices body).
Proof.
  intros Hbody. induction indices as [|i rest IH]; simpl.
  - apply preserves_ret.
  - by apply preserves_bind.
Qed.
End preserves.

(** Splits a method along its binds and its case distinctions; what is left
    are the assignments. *)
Ltac frame_step :=
  match goal with
  | |- preserves _ (_ ≫= _) => apply preserves_bind; [apply _| |intros ?]
  | |- preserves _ (ret _) => apply preserves_ret; apply _
  | |- preserves _ (mret _) => apply preserves_mret; apply _
  | |- preserves _ (throw _) => apply preserves_throw; apply _
  | |- preserves _ get => apply preserves_get; apply _
  | |- preserves _ (on_outside _) => unfold on_outside
  | |- preserves _ (write_log _ _) => unfold write_log
  | |- preserves _ (modify _) => apply preserves_modify; intros ?
  | |- preserves _ (for_each _ _) => apply preserves_for_each; [apply _|intros ?]
  | |- preserves _ (if ?b then _ else _) => destruct b
  | |- preserves _ (match ?x with _ => _ end) => destruct x
  end.
Ltac frame := repeat frame_step.

(** *** The configuration object *)

#[local] Instance same_config_preorder : PreOrder same_config.
Proof. split; [done|]. intros s1 s2 s3 H12 H23. unfold same_config in *. congruence. Qed.

Lemma same_config_written name row sim : same_config sim (written name row sim).
Proof. apply written_frame. Qed.

Lemma logTrade_same_config ts : preserves same_config (logTrade ts).
Proof. unfold logTrade. frame; (done || apply same_config_written). Qed.

Lemma logOrder_same_config prefix o : preserves same_config (logOrder prefix o).
Proof. unfold logOrder. frame; (done || apply same_config_written). Qed.

Lemma getMaximumPossibleGainsFromTrade_same_config :
  preserves same_config getMaximumPossibleGainsFromTrade.
Proof. unfold getMaximumPossibleGainsFromTrade. frame; done. Qed.

Lemma logPeriod_same_config : preserves same_config logPeriod.
Proof.
  unfold logPeriod. frame;
    first [done | apply same_config_written
          | apply getMaximumPossibleGainsFromTrade_same_config ].
Qed.

Lemma on_event_same_config ev : preserves same_config (on_event ev).
Proof.
  destruct ev; simpl; frame;
    first [done | apply logTrade_same_config | apply logOrder_same_config].
Qed.

Lemma syncRun_same_config t : preserves same_config (syncRun t).
Proof.
  unfold syncRun. frame.
  apply preserves_listen; [apply _|done|apply on_event_same_config].
Qed.

Lemma atEndOfPeriod_same_config : preserves same_config atEndOfPeriod.
Proof. unfold atEndOfPeriod. frame; first [done | apply logPeriod_same_config]. Qed.

Lemma runPeriod_same_config sync : preserves same_config (runPeriod sync).
Proof.
  unfold runPeriod. frame;
    first [done | apply syncRun_same_config | apply atEndOfPeriod_same_config].
Qed.

Lemma onRealtimeWake_same_config endTime :
  preserves same_config (onRealtimeWake endTime).
Proof.
  unfold onRealtimeWake. frame;
    first [done | apply syncRun_same_config | apply atEndOfPeriod_same_config].
Qed.

Lemma run_while_same_config fuel update :
  (∀ f, update = Some f → preserves same_config f) →
  preserves same_config (run_while fuel update).
Proof.
  intros Hupdate. induction fuel as [|fuel IH]; simpl.
  - frame; done.
  - frame; first [done | apply runPeriod_same_config | by apply Hupdate].
Qed.

(** *** The constructor *)

#[local] Instance config_but_for_rates_preorder : PreOrder config_but_for_rates.
Proof.
  split.
  - intros sim. exists (Config.buyerRate (config sim)), (Config.sellerRate (config sim)).
    by destruct (config sim).
  - intros s1 s2 s3 (b & c & H12) (b' & c' & H23).
    exists b', c'. unfold config_but_for_rates, but_for_rates in *.
    rewrite H23, H12. done.
Qed.

Lemma same_config_but_for_rates sim sim' :
  same_config sim sim' → config_but_for_rates sim sim'.
Proof.
  unfold same_config, config_but_for_rates. intros ->.
  apply (reflexivity (R := config_but_for_rates) sim).
Qed.

Lemma newAgentFactory_same_config name options :
  preserves same_config (newAgentFactory name options).
Proof. unfold newAgentFactory. frame; done. Qed.

Lemma initAgents_config : preserves config_but_for_rates initAgents.
Proof.
  unfold initAgents, newBuyerAgent, newSellerAgent, newAgentFactory, teachAgent.
  frame; try (apply same_config_but_for_rates; done).
  - exists (Some (default [1] (positiveNumberArray (Config.buyerRate (config sim))))),
      (Config.sellerRate (config sim)).
    simpl. by destruct (config sim).
  - exists (Config.buyerRate (config sim)),
      (Some (default [1] (positiveNumberArray (Config.sellerRate (config sim))))).
    simpl. by destruct (config sim).
Qed.

Lemma bind_inv {A B} (m : M A) (k : A → M B) sim r sim' :
  (m ≫= k) sim = (r, sim') →
  (∃ e, m sim = (Throw e, sim') ∧ r = Throw e)
  ∨ (∃ a s1, m sim = (Normal a, s1) ∧ k a s1 = (r, sim')).
Proof.
  unfold mbind, M_bind, bind. destruct (m sim) as [[a|e] s1].
  - intros Hk. right. by exists a, s1.
  - intros [= <- <-]. left. by exists e.
Qed.

(** initAgents either throws before it writes the rates, or writes both. *)
Lemma initAgents_rates sim r sim' :
  initAgents sim = (r, sim') →
  (config sim' = config sim ∧ ∃ e, r = Throw e)
  ∨ config sim' = rates_written (config sim).
Proof.
  unfold initAgents. intros Hrun.
  apply bind_inv in Hrun as [(? & [=] & _)|(? & ? & [= <- <-] & Hrun)].
  do 3 apply bind_inv in Hrun as [(? & [=] & _)|(? & ? & [= <- <-] & Hrun)].
  apply bind_inv in Hrun as [(e & Hthrow & ->)|(nb & s1 & Hnb & Hrun)].
  { left. split; [|by eexists].
    destruct (truthy (Config.numberOfBuyers (config sim))); [done|].
    destruct (Config.buyerValues (config sim)); [done|].
    by injection Hthrow as _ <-. }
  assert (config s1 = config sim) as Hs1.
  { destruct (truthy (Config.numberOfBuyers (config sim)));
      [by injection Hnb as _ <-|].
    destruct (Config.buyerValues (config sim)); [|done].
    by injection Hnb as _ <-. }
  apply bind_inv in Hrun as [(e & Hthrow & ->)|(ns & s2 & Hns & Hrun)].
  { left. split; [|by eexists].
    destruct (truthy (Config.numberOfSellers (config sim))); [done|].
    destruct (Config.sellerCosts (config sim)); [done|].
    by injection Hthrow as _ <-. }
  assert (config s2 = config sim) as Hs2.
  { destruct (truthy (Config.numberOfSellers (config sim)));
      [by injection Hns as _ <-|].
    destruct (Config.sellerCosts (config sim)); [|done].
    by injection Hns as _ <-. }
  do 3 apply bind_inv in Hrun as [(? & [=] & _)|(? & ? & [= <- <-] & Hrun)].
  right.
  match type of Hrun with
  | ?m ?s = _ =>
      assert (preserves same_config m) as Hrest;
      [|specialize (Hrest s); rewrite Hrun in Hrest]
  end.
  { unfold newBuyerAgent, newSellerAgent, newAgentFactory, teachAgent.
    frame; done. }
  unfold same_config in Hrest. simpl in Hrest.
  rewrite Hrest. unfold rates_written. by rewrite Hs2.
Qed.

Lemma constructor_rates cfg e :
  match constructor cfg e with
  | (Normal _, sim) => config sim = rates_written cfg
  | (Throw _, sim) => config sim = cfg ∨ config sim = rates_written cfg
  end.
Proof.
  unfold constructor.
  destruct ((initLogs;; initMarket;; initAgents;; modify (set_period 0);;
             modify (set_periodTradePrices [])) (blank cfg e))
    as [r sim] eqn:Hrun.
  assert (∀ s, config (initLogs s).2 = config s) as Hlogs.
  { intros s. assert (preserves same_config initLogs) as Hp; [|apply Hp].
    unfold initLogs. frame; done. }
  assert (∀ s, config (initMarket s).2 = config s) as Hmarket.
  { intros s. assert (preserves same_config initMarket) as Hp; [|apply Hp].
    unfold initMarket. frame; done. }
  apply bind_inv in Hrun as [(e1 & H1 & ->)|([] & s1 & H1 & Hrun)].
  { left. specialize (Hlogs (blank cfg e)). by rewrite H1 in Hlogs. }
  specialize (Hlogs (blank cfg e)). rewrite H1 in Hlogs. simpl in Hlogs.
  apply bind_inv in Hrun as [(e2 & H2 & ->)|([] & s2 & H2 & Hrun)].
  { left. specialize (Hmarket s1). rewrite H2 in Hmarket. simpl in *. congruence. }
  specialize (Hmarket s1). rewrite H2 in Hmarket. simpl in Hmarket.
  assert (config s2 = cfg) as Hs2 by congruence.
  apply bind_inv in Hrun as [(e3 & H3 & ->)|([] & s3 & H3 & Hrun)].
  { destruct (initAgents_rates _ _ _ H3) as [[-> _]| ->]; rewrite Hs2; auto. }
  destruct (initAgents_rates _ _ _ H3) as [[_ [? [=]]]|H3'].
  apply bind_inv in Hrun as [(? & [=] & _)|(? & ? & [= <- <-] & Hrun)].
  injection Hrun as <- <-. simpl. by rewrite H3', Hs2.
Qed.

Lemma constructor_config cfg e :
  but_for_rates cfg (config (constructor cfg e).2).
Proof.
  unfold constructor.
  assert (preserves config_but_for_rates
            (initLogs;; initMarket;; initAgents;; modify (set_period 0);;
             modify (set_periodTradePrices []))) as Hframe.
  { unfold initLogs, initMarket. frame;
      first [ apply initAgents_config | by apply same_config_but_for_rates ]. }
  apply (Hframe (blank cfg e)).
Qed.

#[local] Instance same_logs_preorder : PreOrder same_logs.
Proof. split; [done|]. intros s1 s2 s3 H12 H23. unfold same_logs in *. congruence. Qed.

Lemma initAgents_logs : preserves same_logs initAgents.
Proof.
  unfold initAgents, newBuyerAgent, newSellerAgent, newAgentFactory, teachAgent.
  frame; done.
Qed.

Lemma initMarket_logs : preserves same_logs initMarket.
Proof. unfold initMarket. frame; done. Qed.

Lemma initLogs_fresh sim name :
  name ∈ ["trade"; "profit"; "ohlc"; "volume"; "effalloc"]%string →
  ∃ l, logs (initLogs sim).2 !! name = Some l ∧ fresh_log l name.
Proof.
  intros Hname. unfold initLogs.
  rewrite (bind_normal get _ sim sim sim) by done.
  unfold modify, fresh_log, logHeaders. cbn [snd logs set_logs].
  destruct (Config.withoutOrderLogs (config sim));
    repeat (apply elem_of_cons in Hname as [->|Hname]); try by inversion Hname.
  all: vm_compute; eexists; split; reflexivity.
Qed.

(** What a completed constructor leaves: period 0, no trade price, the logs
    of initLogs, the caller's periods. *)
Lemma constructor_normal cfg e sim :
  constructor cfg e = (Normal (), sim) →
  period sim = 0
  ∧ periodTradePrices sim = []
  ∧ Config.periods (config sim) = Config.periods cfg
  ∧ ∀ name, name ∈ ["trade"; "profit"; "ohlc"; "volume"; "effalloc"]%string →
      ∃ l, logs sim !! name = Some l ∧ fresh_log l name.
Proof.
  intros Hnew.
  assert (Hc := constructor_config cfg e). rewrite Hnew in Hc. simpl in Hc.
  destruct Hc as (b & c & Hc).
  unfold constructor in Hnew.
  unfold mbind, M_bind, bind in Hnew.
  destruct (initLogs (blank cfg e)) as [[[]|?] s1] eqn:H1; [|done].
  assert (Hm := initMarket_logs s1).
  destruct (initMarket s1) as [[[]|?] s2] eqn:H2; [|done].
  assert (Ha := initAgents_logs s2).
  destruct (initAgents s2) as [[[]|?] s3] eqn:H3; [|done].
  simpl in Hnew. injection Hnew as <-. simpl in *.
  split; [done|]. split; [done|]. split; [by rewrite Hc|].
  intros name Hname. unfold same_logs in *. rewrite Ha, Hm.
  replace s1 with (initLogs (blank cfg e)).2 by by rewrite H1.
  by apply initLogs_fresh.
Qed.

(** ** Running periods synchronously *)

#[local] Instance steady_preorder : PreOrder steady.
Proof.
  split; [done|].
  intros s1 s2 s3 (? & ? & ?) (? & ? & ?). unfold steady. repeat split; congruence.
Qed.

Lemma steady_written name row sim :
  name ≠ "volume" → steady sim (written name row sim).
Proof.
  intros Hname. destruct (written_frame name row sim) as (? & _ & ? & _).
  repeat split; [done..|]. rewrite logs_written. by case_decide.
Qed.

Lemma logTrade_steady ts : preserves steady (logTrade ts).
Proof. unfold logTrade. frame; (done || by apply steady_written). Qed.

Lemma on_event_steady ev : preserves steady (on_event ev).
Proof.
  destruct ev; simpl; [|unfold logOrder..]; frame;
    first [done | apply logTrade_steady | by apply steady_written].
Qed.

Lemma syncRun_steady t : preserves steady (syncRun t).
Proof.
  unfold syncRun. frame.
  apply preserves_listen; [apply _|done|apply on_event_steady].
Qed.

Lemma runPeriod_sync_run sim :
  runPeriod true sim
  = match syncRun (pool_endTime (outside (period_begun sim))) (period_begun sim) with
    | (Normal _, s) =>
        (Normal Returned,
         set_periodTradePrices []
           (after_effalloc (set_outside (pool_endPeriod (outside s)) s)))
    | (Throw e, s) => (Throw e, s)
    end.
Proof.
  unfold runPeriod, atEndOfPeriod, mbind, M_bind, bind, on_outside, modify, get.
  simpl.
  change (set_outside _ (set_outside _ _)) with (period_begun sim).
  change (pool_endTime _) with (pool_endTime (outside (period_begun sim))).
  destruct (syncRun _ (period_begun sim)) as [[[]|e] s]; [|done].
  by rewrite logPeriod_run.
Qed.

Lemma after_effalloc_frame sim :
  config (after_effalloc sim) = config sim
  ∧ period (after_effalloc sim) = period sim.
Proof.
  assert (config (before_effalloc sim) = config sim
          ∧ period (before_effalloc sim) = period sim) as [Hc Hp].
  { unfold before_effalloc.
    repeat match goal with
           | |- context [written ?n ?r ?s] =>
               destruct (written_frame n r s) as (-> & _ & -> & _)
           end. done. }
  unfold after_effalloc.
  repeat match goal with
         | |- context [if ?b then _ else _] => destruct b
         end;
    repeat match goal with
           | |- context [written ?n ?r ?s] =>
               destruct (written_frame n r s) as (-> & _ & -> & _)
           end; done.
Qed.

Lemma runPeriod_sync sim r sim' :
  runPeriod true sim = (r, sim') →
  config sim' = config sim
  ∧ period sim' = period sim + 1
  ∧ (∀ x, r = Normal x →
       x = Returned
       ∧ ∃ n, logs sim' !! "volume"
              = Log_write (Some [Num (period sim + 1); Num n])
                  <$> logs sim !! "volume").
Proof.
  rewrite runPeriod_sync_run.
  destruct (syncRun_steady (pool_endTime (outside (period_begun sim)))
              (period_begun sim)) as (Hc & Hp & Hv).
  destruct (syncRun _ (period_begun sim)) as [[[]|e] s]; simpl in *;
    intros [= <- <-]; [|done].
  set (s' := set_outside _ s).
  destruct (after_effalloc_frame s') as [Hc' Hp'].
  cbn [config period logs set_periodTradePrices].
  split; [by rewrite Hc'|]. split; [by rewrite Hp'|].
  intros x [= <-]. split; [done|]. eexists.
  rewrite logs_after_effalloc by done.
  unfold before_effalloc. rewrite !logs_written.
  repeat (case_decide; try done); []. simpl. by rewrite Hv, Hp.
Qed.

Lemma Qc_of_nat_succ (k : nat) : #(Z.of_nat k) + 1 = #(Z.of_nat (S k)).
Proof. by rewrite Nat2Z.inj_succ, <-Z.add_1_r, Z2Qc_inj_add, Z2Qc_inj_1. Qed.

Lemma run_while_counts fuel : ∀ (N k : nat) sim lv,
  Config.periods (config sim) = #(Z.of_nat N) →
  period sim = #(Z.of_nat k) →
  (k ≤ N)%nat →
  (N - k ≤ fuel)%nat →
  logs sim !! "volume" = Some lv →
  ∃ r sim',
    run_while fuel None sim = (r, sim')
    ∧ r ≠ Normal OutOfFuel
    ∧ (r = Normal Finished →
       period sim' = #(Z.of_nat N)
       ∧ ∃ counts,
           length counts = (N - k)%nat
           ∧ data <$> logs sim' !! "volume"
             = Some (data lv ++ volume_rows (S k) counts)).
Proof.
  induction fuel as [|fuel IH]; intros N k sim lv HN Hk Hle Hfuel Hv.
  - assert (k = N) as -> by lia.
    eexists _, sim. simpl. rewrite (bind_normal get _ sim sim sim) by done.
    rewrite bool_decide_eq_false_2.
    2:{ rewrite HN, Hk. intros Hlt. by apply Qclt_not_eq in Hlt. }
    split; [done|]. split; [done|]. intros _. split; [done|].
    exists []. rewrite Nat.sub_diag. split; [done|].
    by rewrite Hv, app_nil_r.
  - simpl. rewrite (bind_normal get _ sim sim sim) by done.
    destruct (decide (k = N)) as [->|Hne].
    + rewrite bool_decide_eq_false_2.
      2:{ rewrite HN, Hk. intros Hlt. by apply Qclt_not_eq in Hlt. }
      eexists _, sim. split; [done|]. split; [done|]. intros _. split; [done|].
      exists []. rewrite Nat.sub_diag. split; [done|].
      by rewrite Hv, app_nil_r.
    + rewrite bool_decide_eq_true_2.
      2:{ rewrite HN, Hk. apply (proj1 (Z2Qc_inj_lt (Z.of_nat k) (Z.of_nat N))). lia. }
      destruct (runPeriod true sim) as [r1 s1] eqn:Hrun.
      destruct (runPeriod_sync _ _ _ Hrun) as (Hc1 & Hp1 & Hr1).
      destruct r1 as [x|e].
      2:{ eexists _, s1. rewrite (bind_throw _ _ _ _ _ Hrun). by repeat split. }
      destruct (Hr1 x eq_refl) as (-> & n & Hv1).
      rewrite (bind_normal _ _ _ _ _ Hrun).
      erewrite bind_normal by reflexivity.
      rewrite Hv in Hv1. simpl in Hv1.
      rewrite Hk, Qc_of_nat_succ in Hp1.
      assert (Config.periods (config s1) = #(Z.of_nat N)) as HN1 by by rewrite Hc1.
      destruct (IH N (S k) s1 _ HN1 Hp1 ltac:(lia) ltac:(lia) Hv1)
        as (r & sim' & Hloop & Hfuel' & Hfin).
      exists r, sim'. split; [done|]. split; [done|].
      intros Hr. destruct (Hfin Hr) as (HpN & counts & Hlen & Hdata).
      split; [done|]. exists (n :: counts). split; [simpl; lia|].
      rewrite Hdata. simpl. rewrite Hk, Qc_of_nat_succ.
      by rewrite <-app_assoc.
Qed.

(** C8. On a new simulation whose configuration asks for N periods,
    run({sync:true}) cannot loop for ever (N iterations are enough), and when
    it returns the period counter is N and has been 1, 2, ..., N in turn:
    every runPeriod adds exactly one to it ([runPeriod_sync]) and the volume
    log, which gets one row per period, lists the periods 1 to N once each. *)
Theorem run_sync_counts_periods (cfg : Config.t) (e : E) (N fuel : nat)
    (sim0 : Simulation) :
  constructor cfg e = (Normal (), sim0) →
  Config.periods cfg = #(Z.of_nat N) →
  (N ≤ fuel)%nat →
  ∃ r sim',
    run fuel (Some {| sync := Some true; update := None; delay := None |}) sim0
    = (r, sim')
    ∧ r ≠ Normal run_diverged
    ∧ (r = Normal run_returned →
       period sim' = #(Z.of_nat N)
       ∧ ∃ counts,
           length counts = N
           ∧ data <$> logs sim' !! "volume"
             = Some ([Str <$> ["period"; "volume"]%string]
                     ++ volume_rows 1 counts)).
Proof.
  intros Hnew HN Hfuel.
  destruct (constructor_normal _ _ _ Hnew) as (Hp0 & _ & Hperiods & Hlogs).
  destruct (Hlogs "volume") as (lv & Hv & Hfresh).
  { by do 3 right; left. }
  destruct (run_while_counts fuel N 0 sim0 lv) as (r & sim' & Hloop & Hnd & Hfin);
    [congruence|by rewrite Hp0, <-Z2Qc_inj_0|lia|lia|done|].
  unfold run. simpl.
  destruct r as [[]|err].
  - eexists _, sim'. rewrite (bind_normal _ _ _ _ _ Hloop).
    split; [done|]. split; [done|]. intros _.
    destruct (Hfin eq_refl) as (HpN & counts & Hlen & Hdata).
    split; [done|]. exists counts. split; [lia|].
    rewrite Hdata. by rewrite Hfresh.
  - done.
  - eexists _, sim'. rewrite (bind_throw _ _ _ _ _ Hloop). by repeat split.
Qed.

(** ** runPeriod in real time *)

(** C1 (as amended). In real-time mode, with the timer of an earlier period
    still set, runPeriod hands back a rejected promise at once: no agent
    runs, no log is written and periodTradePrices is as before.  The period
    counter, however, has already been incremented (and the pool told to
    begin that period, the book cleared) when the guard is reached. *)
Theorem runPeriod_realtime_guard (sim : Simulation) (i : nat) :
  Config.realtime (config sim) = true →
  realtimeIntervalId sim = Some i →
  ∃ sim',
    runPeriod false sim
    = (Normal (Rejected "sim has unexpected realtimeIntervalId"), sim')
    ∧ periodTradePrices sim' = periodTradePrices sim
    ∧ logs sim' = logs sim
    ∧ period sim' = period sim + 1
    ∧ outside sim'
      = clearInterval i
          (xMarket_clear (pool_initPeriod (period sim + 1) (outside sim))).
Proof.
  intros Hrealtime Hid. eexists.
  unfold runPeriod, mbind, M_bind, bind, on_outside, modify, get. simpl.
  rewrite Hrealtime. simpl. rewrite Hid. simpl. by repeat split.
Qed.

(** ** run *)


(** ** The configuration object *)

(** What the code does write of the caller's configuration object.  The
    constructor writes two properties and no other: when it completes,
    buyerRate and sellerRate hold positiveNumberArray(rate) || [1] and every
    other property is as the caller gave it (when it throws, the object is
    either untouched or written in the same way).  A call of runPeriod, a
    real-time tick and a call of run (without a callback of the caller's)
    write none; in the promise mode this is the call itself, up to
    pool.runAsPromise, and not what the promise does once the host settles
    it. *)
Theorem config_written_only_in_rates :
  (∀ cfg e,
     match constructor cfg e with
     | (Normal _, sim) =>
         config sim
         = Config.set_sellerRate
             (Some (default [1] (positiveNumberArray (Config.sellerRate cfg))))
             (Config.set_buyerRate
                (Some (default [1] (positiveNumberArray (Config.buyerRate cfg))))
                cfg)
     | (Throw _, sim) =>
         config sim = cfg
         ∨ config sim
           = Config.set_sellerRate
               (Some (default [1] (positiveNumberArray (Config.sellerRate cfg))))
               (Config.set_buyerRate
                  (Some (default [1] (positiveNumberArray (Config.buyerRate cfg))))
                  cfg)
     end)
  ∧ (∀ sync sim, config (runPeriod sync sim).2 = config sim)
  ∧ (∀ endTime sim, config (onRealtimeWake endTime sim).2 = config sim)
  ∧ (∀ fuel (b : option bool) (d : option Qc) sim,
       config (run fuel (Some {| sync := b; update := None; delay := d |}) sim).2
       = config sim)
  ∧ (∀ fuel sim, config (run fuel None sim).2 = config sim).
Proof.
  split; [apply constructor_rates|].
  split; [intros sync sim; apply runPeriod_same_config|].
  split; [intros endTime sim; apply onRealtimeWake_same_config|].
  assert (∀ fuel arg,
    (∀ f, update (run_parameter arg) = Some f → preserves same_config f) →
    preserves same_config (run fuel arg)) as Hrun.
  { intros fuel arg Hupdate. unfold run. frame;
      first [done | by apply run_while_same_config | apply runPeriod_same_config]. }
  split.
  - intros fuel b d sim. by apply Hrun.
  - intros fuel sim. apply Hrun. simpl. intros f [= <-]. frame.
Qed.

(** ** The maximum possible gains from trade *)

Section sort.
Context (compareFn : Qc → Qc → Qc).
Context `{!Total (before compareFn), !Transitive (before compareFn),
          !AntiSymm (=) (before compareFn)}.
#[local] Abbreviation before := (before compareFn).

Lemma sort_insert_Permutation x l : sort_insert compareFn x l ≡ₚ x :: l.
Proof.
  induction l as [|y l IH]; simpl; [done|].
  case_bool_decide; [done|]. by rewrite IH, Permutation_swap.
Qed.

Lemma Array_sort_Permutation l : Array_sort compareFn l ≡ₚ l.
Proof.
  induction l as [|x l IH]; simpl; [done|].
  by rewrite sort_insert_Permutation, IH.
Qed.

Lemma sort_insert_HdRel a x l :
  before a x → HdRel before a l → HdRel before a (sort_insert compareFn x l).
Proof.
  intros Hax Hal. destruct l as [|y l]; simpl; [by constructor|].
  case_bool_decide; constructor; [done|]. by inversion Hal.
Qed.

Lemma sort_insert_Sorted x l :
  Sorted before l → Sorted before (sort_insert compareFn x l).
Proof.
  induction 1 as [|y l Hl IH Hy]; simpl; [by repeat constructor|].
  case_bool_decide as Hxy.
  - by repeat constructor.
  - constructor; [done|]. apply sort_insert_HdRel; [|done].
    by destruct (total before x y).
Qed.

Lemma Array_sort_Sorted l : Sorted before (Array_sort compareFn l).
Proof.
  induction l as [|x l IH]; simpl; [constructor|].
  by apply sort_insert_Sorted.
Qed.

(** The sorted array depends on the elements only, not on their order. *)
Lemma Array_sort_order_irrelevant l l' :
  l ≡ₚ l' → Array_sort compareFn l = Array_sort compareFn l'.
Proof.
  intros Hperm. apply (Sorted_unique before); [apply Array_sort_Sorted..|].
  by rewrite !Array_sort_Permutation.
Qed.
End sort.

Lemma Qcminus_nonpos (a b : Qc) : a - b ≤ 0 ↔ a ≤ b.
Proof.
  rewrite (Qcplus_le_mono_r a b (- b)).
  by rewrite Qcplus_opp_r.
Qed.

#[local] Instance descending_total : Total (λ x y : Qc, y - x ≤ 0).
Proof. intros x y. rewrite !Qcminus_nonpos. destruct (total Qcle x y); auto. Qed.
#[local] Instance descending_trans : Transitive (λ x y : Qc, y - x ≤ 0).
Proof. intros x y z. rewrite !Qcminus_nonpos. intros. by trans y. Qed.
#[local] Instance descending_antisymm : AntiSymm (=) (λ x y : Qc, y - x ≤ 0).
Proof. intros x y. rewrite !Qcminus_nonpos. intros. by apply (anti_symm Qcle). Qed.
#[local] Instance ascending_total : Total (λ x y : Qc, x - y ≤ 0).
Proof. intros x y. rewrite !Qcminus_nonpos. apply (total Qcle). Qed.
#[local] Instance ascending_trans : Transitive (λ x y : Qc, x - y ≤ 0).
Proof. intros x y z. rewrite !Qcminus_nonpos. intros. by trans y. Qed.
#[local] Instance ascending_antisymm : AntiSymm (=) (λ x y : Qc, x - y ≤ 0).
Proof. intros x y. rewrite !Qcminus_nonpos. intros. by apply (anti_symm Qcle). Qed.

(** X27. The first call of getMaximumPossibleGainsFromTrade computes the
    same gains whatever the order of the configured values and of the
    configured costs: it sorts copies of both arrays before pairing them. *)
Lemma getMaximumPossibleGainsFromTrade_order_irrelevant sim bv bv' sc sc' :
  truthy (maximumPossibleGainsFromTrade sim) = false →
  bv ≡ₚ bv' → sc ≡ₚ sc' →
  (getMaximumPossibleGainsFromTrade (with_values bv sc sim)).1
  = (getMaximumPossibleGainsFromTrade (with_values bv' sc' sim)).1.
Proof.
  intros Hmemo Hbv Hsc. rewrite !getMaximumPossibleGainsFromTrade_run.
  unfold maximumGains. simpl. rewrite Hmemo. simpl.
  by rewrite (Array_sort_order_irrelevant _ bv bv'),
       (Array_sort_order_irrelevant _ sc sc').
Qed.

(** X28. A gain that is not zero is remembered: later calls of
    getMaximumPossibleGainsFromTrade return it, and change nothing, whatever
    the configuration has become. *)
Lemma getMaximumPossibleGainsFromTrade_remembered sim g s1 c :
  getMaximumPossibleGainsFromTrade sim = (Normal g, s1) →
  g ≠ 0 →
  getMaximumPossibleGainsFromTrade (set_config c s1)
  = (Normal g, set_config c s1).
Proof.
  rewrite !getMaximumPossibleGainsFromTrade_run. intros [= <- <-] Hg.
  unfold maximumGains in *.
  destruct (truthy (maximumPossibleGainsFromTrade sim)) eqn:Hmemo; simpl.
  - by rewrite Hmemo.
  - by rewrite bool_decide_eq_true_2.
Qed.

(** * Further properties of the code *)

#[local] Abbreviation quiet := (@quiet E).
#[local] Abbreviation trades_recorded := (@trades_recorded E).

(** ** Recording a trade *)

Lemma logTrade_cases ts sim :
  (∃ e, logTrade ts sim = (Throw e, sim))
  ∨ (∃ p row,
       tradespec.prices ts !! 0%nat = Some p ∧ p ≠ 0
       ∧ logTrade ts sim
         = (Normal (),
            written "trade" (Some row)
              (set_periodTradePrices (periodTradePrices sim ++ [p]) sim))).
Proof.
  unfold logTrade. rewrite (bind_normal get _ sim sim sim) by done.
  destruct (xMarket_o_idCol (outside sim)) as [idCol|]; [|left; by eexists].
  destruct (_ || _); [left; by eexists|].
  destruct (_ ≫= _) as [buyOrder|]; [|left; by eexists].
  destruct (buyOrder !! idCol) as [buyerid|]; [|left; by eexists].
  destruct (_ ≫= _) as [sellOrder|]; [|left; by eexists].
  destruct (sellOrder !! idCol) as [sellerid|]; [|left; by eexists].
  destruct (tradespec.prices ts !! 0%nat) as [p|] eqn:Hp; [|left; by eexists].
  simpl. case_bool_decide as Hp0; simpl; [|left; by eexists].
  destruct (pool_agentsById (outside sim) !! buyerid) as [buyer|];
    [|left; by eexists].
  destruct (pool_agentsById (outside sim) !! sellerid) as [seller|];
    [|left; by eexists].
  right. eexists p, _. split; [done|]. split; [done|].
  erewrite bind_normal by (unfold modify; reflexivity).
  reflexivity.
Qed.

(** X1. logTrade is all or nothing.  When it throws, for whatever reason
    (idCol undefined, not a unit trade, buyer or seller unknown to the
    market or to the pool, price missing or zero), the simulation is as
    before.  When it returns, the first price of the event, which is not
    zero, has been appended to periodTradePrices, and nothing else has
    changed but the trade log. *)
Theorem logTrade_all_or_nothing (ts : tradespec.t) (sim : Simulation) :
  match logTrade ts sim with
  | (Throw _, sim') => sim' = sim
  | (Normal _, sim') =>
      (∃ p, tradespec.prices ts !! 0%nat = Some p ∧ p ≠ 0
            ∧ periodTradePrices sim' = periodTradePrices sim ++ [p])
      ∧ config sim' = config sim
      ∧ period sim' = period sim
      ∧ outside sim' = outside sim
      ∧ ∀ name, name ≠ "trade" → logs sim' !! name = logs sim !! name
  end.
Proof.
  destruct (logTrade_cases ts sim) as [[e ->]|(p & row & Hp & Hp0 & ->)];
    [done|].
  destruct (written_frame "trade" (Some row)
              (set_periodTradePrices (periodTradePrices sim ++ [p]) sim))
    as (Hc & Ho & Hper & Hprices & _).
  split; [by exists p|]. repeat split; [done..|].
  intros name Hname. rewrite logs_written. by case_decide.
Qed.

(** X2. The listener of 'trade' settles a trade in the pool only after it
    has been recorded: when logTrade throws, pool.trade is not called and the
    simulation is as before; otherwise the pool has taken the trade and one
    price has been appended. *)
Theorem trade_listener_settles_after_recording (ts : tradespec.t)
    (sim : Simulation) :
  match on_event (trade ts) sim with
  | (Throw _, sim') => sim' = sim
  | (Normal _, sim') =>
      outside sim' = pool_trade ts (outside sim)
      ∧ ∃ p, periodTradePrices sim' = periodTradePrices sim ++ [p]
  end.
Proof.
  simpl.
  destruct (logTrade_cases ts sim) as [[e He]|(p & row & Hp & Hp0 & Hrun)].
  - by rewrite (bind_throw _ _ _ _ _ He).
  - rewrite (bind_normal _ _ _ _ _ Hrun). unfold on_outside, modify.
    destruct (written_frame "trade" (Some row)
                (set_periodTradePrices (periodTradePrices sim ++ [p]) sim))
      as (Hc & Ho & Hper & Hprices & _).
    cbn [outside set_outside periodTradePrices]. rewrite Ho, Hprices.
    split; [done|]. by exists p.
Qed.

(** ** Recording an order *)

Lemma append_inj_r (prefix a b : string) :
  prefix +:+ a = prefix +:+ b → a = b.
Proof. induction prefix as [|c prefix IH]; simpl; [done|]. intros [= ?]. auto. Qed.

Lemma buyLog_ne_sellLog (prefix : string) :
  prefix +:+ "buyorder" ≠ prefix +:+ "sellorder".
Proof. by intros ?%append_inj_r. Qed.

Lemma written_elsewhere name row sim :
  periodTradePrices (written name row sim) = periodTradePrices sim
  ∧ period (written name row sim) = period sim
  ∧ outside (written name row sim) = outside sim
  ∧ ∀ name', name' ≠ name →
      logs (written name row sim) !! name' = logs sim !! name'.
Proof.
  destruct (written_frame name row sim) as (_ & ? & ? & ? & _).
  repeat split; [done..|]. intros name' Hname.
  rewrite logs_written. by rewrite decide_False.
Qed.

(** Once MEC.ao has read the order, the rest of logOrder returns, and it
    touches nothing but the buy-order and sell-order logs of its prefix. *)
Lemma logOrder_frame (prefix : string) (o : order.t) (sim : Simulation) :
  ∃ sim',
    logOrder prefix o sim = (Normal (), sim')
    ∧ periodTradePrices sim' = periodTradePrices sim
    ∧ period sim' = period sim
    ∧ outside sim' = outside sim
    ∧ ∀ name, name ≠ prefix +:+ "buyorder" → name ≠ prefix +:+ "sellorder" →
        logs sim' !! name = logs sim !! name.
Proof.
  unfold logOrder. rewrite (bind_normal get _ sim sim sim) by done.
  destruct (pool_agentsById (outside sim) !! order.id o) as [agent|];
    [|by eexists].
  unfold mbind, M_bind, bind, write_log, modify, ret.
  destruct (truthy (order.buyPrice o)), (truthy (order.sellPrice o));
    (eexists; split; [reflexivity|]).
  - match goal with
    | |- context [written ?n2 ?r2 (written ?n1 ?r1 sim)] =>
        destruct (written_elsewhere n1 r1 sim) as (Hp1 & Hq1 & Ho1 & Hl1);
        destruct (written_elsewhere n2 r2 (written n1 r1 sim))
          as (Hp2 & Hq2 & Ho2 & Hl2)
    end.
    repeat split; [congruence..|].
    intros name Hb Hs. by rewrite Hl2, Hl1.
  - match goal with
    | |- context [written ?n1 ?r1 sim] =>
        destruct (written_elsewhere n1 r1 sim) as (Hp1 & Hq1 & Ho1 & Hl1)
    end.
    repeat split; [done..|]. intros name Hb Hs. by rewrite Hl1.
  - match goal with
    | |- context [written ?n1 ?r1 sim] =>
        destruct (written_elsewhere n1 r1 sim) as (Hp1 & Hq1 & Ho1 & Hl1)
    end.
    repeat split; [done..|]. intros name Hb Hs. by rewrite Hl1.
  - done.
Qed.

(** X3. logOrder throws only when MEC.ao throws on the order array, with
    the exception of MEC.ao and before anything is written: the simulation is
    as before.  Otherwise it returns, and whatever the order it has touched
    nothing but the buy-order and sell-order logs of its prefix:
    periodTradePrices, the period counter, the pool and market and every
    other log are as before. *)
Theorem logOrder_touches_only_its_logs {A : Type} (ao : A → Exn + order.t)
    (prefix : string) (orderArray : A) (sim : Simulation) :
  match logOrder_of_array ao prefix orderArray sim with
  | (Throw e, sim') => ao orderArray = inl e ∧ sim' = sim
  | (Normal _, sim') =>
      (∃ o, ao orderArray = inr o)
      ∧ periodTradePrices sim' = periodTradePrices sim
      ∧ period sim' = period sim
      ∧ outside sim' = outside sim
      ∧ ∀ name, name ≠ prefix +:+ "buyorder" → name ≠ prefix +:+ "sellorder" →
          logs sim' !! name = logs sim !! name
  end.
Proof.
  unfold logOrder_of_array.
  destruct (ao orderArray) as [e|o] eqn:Hao.
  - done.
  - destruct (logOrder_frame prefix o sim) as (sim' & -> & Hframe).
    split; [by exists o|exact Hframe].
Qed.

(** X4. An order with a usable buy price and no usable sell price, from an
    agent the pool knows, adds exactly the row (period, t, t - period *
    periodDuration, id, the agent's inventory of X, buy price, the agent's
    unit value, '', '') to the buy-order log of the prefix, when that log
    exists, and leaves the sell-order log alone. *)
Theorem logOrder_writes_buy_row (prefix : string) (o : order.t)
    (sim : Simulation) (agent : Agent) (price : Qc) (l : Log) :
  pool_agentsById (outside sim) !! order.id o = Some agent →
  order.buyPrice o = Some price →
  price ≠ 0 →
  truthy (order.sellPrice o) = false →
  logs sim !! (prefix +:+ "buyorder") = Some l →
  ∃ sim',
    logOrder prefix o sim = (Normal (), sim')
    ∧ data <$> logs sim' !! (prefix +:+ "buyorder")
      = Some (data l ++
              [[ Num (period sim); Num (order.t_ o);
                 Num (order.t_ o - period sim * periodDuration sim);
                 Num (order.id o); Num (X (inventory agent)); Num price;
                 Num (unitValueFunction agent "X" (inventory agent));
                 Str EmptyString; Str EmptyString ]])
    ∧ logs sim' !! (prefix +:+ "sellorder") = logs sim !! (prefix +:+ "sellorder").
Proof.
  intros Hagent Hbuy Hprice Hsell Hl. unfold logOrder.
  rewrite (bind_normal get _ sim sim sim) by done.
  rewrite Hagent, Hbuy, Hsell, truthy_Some by done.
  erewrite bind_normal by (by apply write_log_present).
  eexists. split; [reflexivity|]. simpl.
  rewrite lookup_insert_eq, lookup_insert_ne by apply buyLog_ne_sellLog.
  done.
Qed.

(** X5. The same for an order with a usable sell price and no usable buy
    price: the row (period, t, t - period * periodDuration, id, inventory of
    X, '', '', sell price, the agent's unit cost) goes to the sell-order log
    of the prefix, and the buy-order log is left alone. *)
Theorem logOrder_writes_sell_row (prefix : string) (o : order.t)
    (sim : Simulation) (agent : Agent) (price : Qc) (l : Log) :
  pool_agentsById (outside sim) !! order.id o = Some agent →
  order.sellPrice o = Some price →
  price ≠ 0 →
  truthy (order.buyPrice o) = false →
  logs sim !! (prefix +:+ "sellorder") = Some l →
  ∃ sim',
    logOrder prefix o sim = (Normal (), sim')
    ∧ data <$> logs sim' !! (prefix +:+ "sellorder")
      = Some (data l ++
              [[ Num (period sim); Num (order.t_ o);
                 Num (order.t_ o - period sim * periodDuration sim);
                 Num (order.id o); Num (X (inventory agent));
                 Str EmptyString; Str EmptyString; Num price;
                 Num (unitCostFunction agent "X" (inventory agent)) ]])
    ∧ logs sim' !! (prefix +:+ "buyorder") = logs sim !! (prefix +:+ "buyorder").
Proof.
  intros Hagent Hsell Hprice Hbuy Hl. unfold logOrder.
  rewrite (bind_normal get _ sim sim sim) by done.
  rewrite Hagent, Hbuy, Hsell, truthy_Some by done.
  erewrite bind_normal by reflexivity.
  erewrite write_log_present by done.
  eexists. split; [reflexivity|]. simpl.
  rewrite lookup_insert_eq, lookup_insert_ne
    by (apply not_eq_sym, buyLog_ne_sellLog).
  done.
Qed.

(** ** The end of a period *)

(** X6. The row ohlc() computes is consistent: there is a row exactly when
    a price was recorded, and then low ≤ open ≤ high and low ≤ close ≤ high,
    with the high and the low among the recorded prices. *)
Theorem ohlc_row_is_consistent (sim : Simulation) :
  (ohlc sim = None ↔ periodTradePrices sim = [])
  ∧ ∀ row, ohlc sim = Some row →
      ∃ o h l c,
        row = Num <$> [period sim; o; h; l; c]
        ∧ l ≤ o ∧ o ≤ h ∧ l ≤ c ∧ c ≤ h
        ∧ h ∈ periodTradePrices sim ∧ l ∈ periodTradePrices sim.
Proof.
  unfold ohlc. destruct (periodTradePrices sim) as [|o rest] eqn:Hprices.
  { split; [done|]. by intros row [=]. }
  split; [done|]. intros row [= <-].
  destruct (Math_max_spec o rest) as [Hmax1 Hmax2].
  destruct (Math_min_spec o rest) as [Hmin1 Hmin2].
  set (c := default o ((o :: rest) !! (length (o :: rest) - 1)%nat)).
  assert (c ∈ o :: rest) as Hc.
  { unfold c. destruct (_ !! _) as [x|] eqn:Hx; simpl; [|by left].
    by eapply list_elem_of_lookup_2. }
  exists o, (Math_max o rest), (Math_min o rest), c.
  split; [done|].
  repeat split; auto using list_elem_of_here.
Qed.

Lemma after_effalloc_elsewhere sim :
  periodTradePrices (after_effalloc sim) = periodTradePrices sim
  ∧ outside (after_effalloc sim) = outside sim
  ∧ ∀ name, name ∉ ["profit"; "ohlc"; "volume"; "effalloc"]%string →
      logs (after_effalloc sim) !! name = logs sim !! name.
Proof.
  assert (periodTradePrices (before_effalloc sim) = periodTradePrices sim
          ∧ outside (before_effalloc sim) = outside sim) as [Hp Ho].
  { unfold before_effalloc.
    repeat match goal with
           | |- context [written ?n ?r ?s] =>
               destruct (written_frame n r s) as (_ & -> & _ & -> & _)
           end. done. }
  split; [|split].
  - unfold after_effalloc.
    repeat match goal with
           | |- context [if ?b then _ else _] => destruct b
           end;
      repeat match goal with
             | |- context [written ?n ?r ?s] =>
                 destruct (written_frame n r s) as (_ & _ & _ & -> & _)
             end; done.
  - unfold after_effalloc.
    repeat match goal with
           | |- context [if ?b then _ else _] => destruct b
           end;
      repeat match goal with
             | |- context [written ?n ?r ?s] =>
                 destruct (written_frame n r s) as (_ & -> & _ & _ & _)
             end; done.
  - intros name Hname.
    rewrite logs_after_effalloc, logs_before_effalloc; [done|..];
      intros ->; apply Hname; repeat constructor.
Qed.

(** X7. logPeriod never throws.  It always empties periodTradePrices, it
    writes to no log but profit, ohlc, volume and effalloc (the trade log and
    the order logs are as before), and it leaves the period counter, the
    configuration and the pool and market alone. *)
Theorem logPeriod_resets_prices_only (sim : Simulation) :
  ∃ sim',
    logPeriod sim = (Normal (), sim')
    ∧ periodTradePrices sim' = []
    ∧ period sim' = period sim
    ∧ config sim' = config sim
    ∧ outside sim' = outside sim
    ∧ ∀ name, name ∉ ["profit"; "ohlc"; "volume"; "effalloc"]%string →
        logs sim' !! name = logs sim !! name.
Proof.
  eexists. split; [apply logPeriod_run|].
  destruct (after_effalloc_frame sim) as [Hc Hp].
  destruct (after_effalloc_elsewhere sim) as (_ & Ho & Hl).
  by repeat split.
Qed.

(** X8. Each end of period writes exactly one row to the volume log, and
    the row is (period, number of prices recorded in the period). *)
Theorem logPeriod_volume_is_price_count (sim : Simulation) (lv : Log) :
  logs sim !! "volume" = Some lv →
  ∃ sim',
    logPeriod sim = (Normal (), sim')
    ∧ data <$> logs sim' !! "volume"
      = Some (data lv ++
              [[Num (period sim);
                Num #(Z.of_nat (length (periodTradePrices sim)))]]).
Proof.
  intros Hv. eexists. split; [apply logPeriod_run|].
  cbn [logs set_periodTradePrices].
  rewrite logs_after_effalloc by done.
  unfold before_effalloc. rewrite !logs_written.
  repeat (case_decide; try done); []. by rewrite Hv.
Qed.

(** ** While the agents run *)

#[local] Instance quiet_preorder : PreOrder quiet.
Proof.
  split.
  - intros sim. by repeat split.
  - intros s1 s2 s3 (? & ? & ? & ? & ? & ? & H12) (? & ? & ? & ? & ? & ? & H23).
    repeat split; [congruence..|].
    intros name Hname. by rewrite H23, H12.
Qed.

Lemma quiet_written name row sim :
  name ∉ ["profit"; "ohlc"; "volume"; "effalloc"]%string →
  quiet sim (written name row sim).
Proof.
  intros Hname. unfold written.
  destruct (logs sim !! name) as [l|]; [|reflexivity].
  repeat split. intros name' Hname'. simpl.
  rewrite lookup_insert_ne; [done|]. by intros ->.
Qed.

Lemma logTrade_quiet ts : preserves quiet (logTrade ts).
Proof.
  intros sim.
  destruct (logTrade_cases ts sim) as [[e ->]|(p & row & _ & _ & ->)];
    [reflexivity|].
  trans (set_periodTradePrices (periodTradePrices sim ++ [p]) sim).
  - by repeat split.
  - apply quiet_written. intros Hin.
    repeat (apply elem_of_cons in Hin as [?|Hin]; [done|]). by inversion Hin.
Qed.

Lemma order_listener_quiet (prefix : string) o :
  prefix = EmptyString ∨ prefix = "reject" →
  preserves quiet (logOrder prefix o).
Proof.
  intros Hprefix. unfold logOrder. frame; try reflexivity;
    apply quiet_written; intros Hin;
    repeat (apply elem_of_cons in Hin as [?|Hin];
            [by destruct Hprefix as [-> | ->]|]);
    by inversion Hin.
Qed.

Lemma on_event_quiet ev : preserves quiet (on_event ev).
Proof.
  destruct ev; simpl; frame;
    first [ apply logTrade_quiet
          | apply order_listener_quiet; auto
          | by repeat split ].
Qed.

Lemma syncRun_quiet t : preserves quiet (syncRun t).
Proof.
  unfold syncRun. frame.
  apply preserves_listen; [apply _| |apply on_event_quiet].
  intros e sim. by repeat split.
Qed.

#[local] Instance trades_recorded_preorder : PreOrder trades_recorded.
Proof.
  split.
  - intros sim. exists []. split; [by rewrite app_nil_r|].
    intros l Hl. exists l, []. by rewrite app_nil_r.
  - intros s1 s2 s3 (p12 & Hp12 & H12) (p23 & Hp23 & H23).
    exists (p12 ++ p23). split; [by rewrite Hp23, Hp12, app_assoc|].
    intros l Hl. destruct (H12 l Hl) as (l2 & r12 & Hl2 & Hd2 & Hn2).
    destruct (H23 l2 Hl2) as (l3 & r23 & Hl3 & Hd3 & Hn3).
    exists l3, (r12 ++ r23). split; [done|].
    split; [by rewrite Hd3, Hd2, app_assoc|].
    rewrite !length_app. lia.
Qed.

Lemma trades_recorded_same sim sim' :
  periodTradePrices sim' = periodTradePrices sim →
  logs sim' !! "trade" = logs sim !! "trade" →
  trades_recorded sim sim'.
Proof.
  intros Hp Hl. exists []. split; [by rewrite app_nil_r|].
  intros l Hsome. exists l, []. by rewrite Hl, app_nil_r.
Qed.

Lemma logTrade_trades_recorded ts : preserves trades_recorded (logTrade ts).
Proof.
  intros sim.
  destruct (logTrade_cases ts sim) as [[e ->]|(p & row & _ & _ & ->)];
    [reflexivity|].
  exists [p]. simpl.
  set (s := set_periodTradePrices _ sim).
  destruct (written_frame "trade" (Some row) s) as (_ & _ & _ & -> & _).
  split; [done|]. intros l Hl. rewrite logs_written, decide_True by done.
  simpl. rewrite Hl. simpl. by eexists _, [row].
Qed.

Lemma order_listener_trades_recorded (prefix : string) o :
  prefix = EmptyString ∨ prefix = "reject" →
  preserves trades_recorded (logOrder prefix o).
Proof.
  intros Hprefix. unfold logOrder. frame; try reflexivity;
    match goal with
    | |- trades_recorded ?s (written ?n ?r ?s) =>
        destruct (written_elsewhere n r s) as (Hp & _ & _ & Hl)
    end;
    (apply trades_recorded_same; [done|]); apply Hl;
    by destruct Hprefix as [-> | ->].
Qed.

Lemma on_event_trades_recorded ev : preserves trades_recorded (on_event ev).
Proof.
  destruct ev; simpl; frame;
    first [ apply logTrade_trades_recorded
          | apply order_listener_trades_recorded; auto
          | by apply trades_recorded_same ].
Qed.

Lemma syncRun_trades_recorded t : preserves trades_recorded (syncRun t).
Proof.
  unfold syncRun. frame.
  apply preserves_listen; [apply _| |apply on_event_trades_recorded].
  intros e sim. by apply trades_recorded_same.
Qed.

(** ** One period *)

Lemma runPeriod_async_period sim :
  period (runPeriod false sim).2 = period sim + 1.
Proof.
  unfold runPeriod, mbind, M_bind, bind, on_outside, modify, get, ret. simpl.
  destruct (Config.realtime (config sim)); simpl; [|done].
  destruct (realtimeIntervalId sim); simpl; [done|].
  destruct (pool_agents _ !! 0%nat); simpl; [|done].
  by destruct (setInterval _ _ _) as [[i e]|].
Qed.

(** X9. Every call of runPeriod adds exactly one to the period counter,
    whatever the mode (synchronous, promise, real time) and whether it
    returns, throws or hands back a rejected promise. *)
Theorem runPeriod_adds_one_to_period (sync : bool) (sim : Simulation) :
  period (runPeriod sync sim).2 = period sim + 1.
Proof.
  destruct sync.
  - destruct (runPeriod true sim) as [r sim'] eqn:Hrun.
    by destruct (runPeriod_sync _ _ _ Hrun) as (_ & ? & _).
  - apply runPeriod_async_period.
Qed.

(** X10. A synchronous period that fails part-way (a listener throws while
    the agents run) writes none of the rows of the end of the period: the
    profit, ohlc, volume and effalloc logs are as before, although the period
    counter has moved.  A period that completes hands back the simulation
    with periodTradePrices emptied. *)
Theorem runPeriod_sync_failure_writes_no_summary (sim : Simulation) :
  match runPeriod true sim with
  | (Throw _, sim') =>
      period sim' = period sim + 1
      ∧ ∀ name, name ∈ ["profit"; "ohlc"; "volume"; "effalloc"]%string →
          logs sim' !! name = logs sim !! name
  | (Normal r, sim') => r = Returned ∧ periodTradePrices sim' = []
  end.
Proof.
  rewrite runPeriod_sync_run.
  destruct (syncRun_quiet (pool_endTime (outside (period_begun sim)))
              (period_begun sim)) as (_ & Hp & _ & _ & _ & _ & Hl).
  by destruct (syncRun _ (period_begun sim)) as [[[]|e] s].
Qed.

(** X11. In a synchronous period that starts with no price pending, the
    volume written at its end is the number of rows the period added to the
    trade log. *)
Theorem runPeriod_sync_volume_counts_trade_rows (sim : Simulation)
    (lt lv : Log) :
  periodTradePrices sim = [] →
  logs sim !! "trade" = Some lt →
  logs sim !! "volume" = Some lv →
  match runPeriod true sim with
  | (Normal _, sim') =>
      ∃ rows,
        data <$> logs sim' !! "trade" = Some (data lt ++ rows)
        ∧ data <$> logs sim' !! "volume"
          = Some (data lv ++
                  [[Num (period sim + 1); Num #(Z.of_nat (length rows))]])
  | (Throw _, sim') =>
      ∃ rows,
        data <$> logs sim' !! "trade" = Some (data lt ++ rows)
        ∧ length (periodTradePrices sim') = length rows
        ∧ logs sim' !! "volume" = Some lv
  end.
Proof.
  intros Hprices Ht Hv. rewrite runPeriod_sync_run.
  set (t := pool_endTime _).
  destruct (syncRun_quiet t (period_begun sim)) as (_ & Hp & _ & _ & _ & _ & Hl).
  destruct (syncRun_trades_recorded t (period_begun sim))
    as (prices & Hps & Htrade).
  destruct (Htrade lt Ht) as (lt' & rows & Hlt' & Hdata & Hlen).
  assert (logs (syncRun t (period_begun sim)).2 !! "volume" = Some lv) as Hvol.
  { rewrite Hl by (by do 2 right; left). exact Hv. }
  cbn [periodTradePrices period_begun set_outside set_period] in Hps.
  rewrite Hprices in Hps. simpl in Hps.
  destruct (syncRun t (period_begun sim)) as [[[]|e] s]; simpl in *.
  - exists rows. set (s' := set_outside _ s).
    destruct (after_effalloc_elsewhere s') as (_ & _ & Hel).
    split.
    + rewrite Hel by (intros Hin;
        repeat (apply elem_of_cons in Hin as [?|Hin]; [done|]);
        by inversion Hin).
      simpl. rewrite Hlt'. simpl. by rewrite Hdata.
    + rewrite logs_after_effalloc by done.
      unfold before_effalloc. rewrite !logs_written.
      repeat (case_decide; try done); [].
      subst s'. simpl. rewrite Hvol. simpl.
      by rewrite Hp, Hps, Hlen.
  - exists rows. rewrite Hlt'. simpl. rewrite Hdata, Hps.
    by repeat split.
Qed.

(** ** Real time *)

Lemma runPeriod_guard_run sim i :
  Config.realtime (config sim) = true →
  realtimeIntervalId sim = Some i →
  runPeriod false sim
  = (Normal (Rejected "sim has unexpected realtimeIntervalId"),
     set_outside (clearInterval i (outside (period_begun sim))) (period_begun sim)).
Proof.
  intros Hrealtime Hid.
  unfold runPeriod, mbind, M_bind, bind, on_outside, modify, get. simpl.
  rewrite Hrealtime. simpl. by rewrite Hid.
Qed.

(** X12. Starting a real-time period: with no timer set, a first agent in
    the pool, a usable end time and a host that hands out timer [i],
    runPeriod hands back a pending promise, remembers [i] in
    realtimeIntervalId and sets the offset sim.realtime to
    Date.now()/1000 - agents[0].period.startTime; no log row is written.  A
    second runPeriod before the period has ended is rejected. *)
Theorem runPeriod_realtime_start (sim : Simulation) (agent0 : Agent)
    (i : nat) (e : E) :
  let e0 := xMarket_clear (pool_initPeriod (period sim + 1) (outside sim)) in
  Config.realtime (config sim) = true →
  realtimeIntervalId sim = None →
  pool_agents e0 !! 0%nat = Some agent0 →
  truthy (pool_endTime e0) = true →
  setInterval true #40 e0 = Some (i, e) →
  ∃ sim',
    runPeriod false sim = (Normal Pending, sim')
    ∧ realtimeIntervalId sim' = Some i
    ∧ realtime sim' = Some (Date_now e0 / #1000 - period_startTime agent0)
    ∧ outside sim' = e
    ∧ logs sim' = logs sim
    ∧ periodTradePrices sim' = periodTradePrices sim
    ∧ (runPeriod false sim').1
      = Normal (Rejected "sim has unexpected realtimeIntervalId").
Proof.
  intros e0 Hrealtime Hid Hagent HendTime Htimer. eexists. split.
  { unfold runPeriod, mbind, M_bind, bind, on_outside, modify, get. simpl.
    rewrite Hrealtime. simpl. rewrite Hid. simpl.
    fold e0. rewrite Hagent. simpl. rewrite HendTime, Htimer. simpl.
    reflexivity. }
  repeat split. by rewrite (runPeriod_guard_run _ i).
Qed.

(** X13. A real-time period whose end time is missing or zero is rejected
    at once, with a reason that starts with "period endTime required for
    onRealtimeWake", whatever the host's setInterval does; no log row is
    written. *)
Theorem runPeriod_realtime_needs_end_time (sim : Simulation) (agent0 : Agent) :
  let e0 := xMarket_clear (pool_initPeriod (period sim + 1) (outside sim)) in
  Config.realtime (config sim) = true →
  realtimeIntervalId sim = None →
  pool_agents e0 !! 0%nat = Some agent0 →
  truthy (pool_endTime e0) = false →
  ∃ rest sim',
    runPeriod false sim
    = (Normal (Rejected ("period endTime required for onRealtimeWake" +:+ rest)),
       sim')
    ∧ logs sim' = logs sim
    ∧ periodTradePrices sim' = periodTradePrices sim.
Proof.
  intros e0 Hrealtime Hid Hagent HendTime. exists EmptyString.
  unfold runPeriod, mbind, M_bind, bind, on_outside, modify, get. simpl.
  rewrite Hrealtime. simpl. rewrite Hid. simpl.
  fold e0. rewrite Hagent. simpl. rewrite HendTime.
  destruct (setInterval false #40 e0) as [[i e]|]; simpl; by eexists.
Qed.

(** X14. Once the guard has tripped the simulation stays refused: the guard
    clears the timer but keeps realtimeIntervalId, so after any number of
    further calls runPeriod is still rejected; each call has moved the period
    counter by one and none has written a log row. *)
Theorem runPeriod_realtime_guard_is_sticky (sim : Simulation) (i n : nat) :
  Config.realtime (config sim) = true →
  realtimeIntervalId sim = Some i →
  let sim' := runPeriod_times n sim in
  realtimeIntervalId sim' = Some i
  ∧ (runPeriod false sim').1
    = Normal (Rejected "sim has unexpected realtimeIntervalId")
  ∧ period sim' = period sim + #(Z.of_nat n)
  ∧ logs sim' = logs sim
  ∧ periodTradePrices sim' = periodTradePrices sim.
Proof.
  revert sim. induction n as [|n IH]; intros sim Hrealtime Hid; simpl.
  - rewrite (runPeriod_guard_run _ i) by done. repeat split; [done|].
    change (Z.of_nat 0) with 0%Z. by rewrite Z2Qc_inj_0, Qcplus_0_r.
  - rewrite (runPeriod_guard_run _ i) by done. cbn [snd].
    set (s := set_outside _ _).
    destruct (IH s) as (Hid' & Hrej & Hp & Hl & Hprices); [done..|].
    repeat split; [done..| |done|done].
    rewrite Hp. subst s. cbn [period set_outside period_begun set_period].
    rewrite Nat2Z.inj_succ, <-Z.add_1_l, Z2Qc_inj_add, Z2Qc_inj_1.
    ring.
Qed.

Lemma written_realtime name row sim :
  realtimeIntervalId (written name row sim) = realtimeIntervalId sim.
Proof. unfold written. by destruct (logs sim !! name). Qed.

Lemma after_effalloc_realtime sim :
  realtimeIntervalId (after_effalloc sim) = realtimeIntervalId sim.
Proof.
  unfold after_effalloc, before_effalloc.
  repeat match goal with
         | |- context [if ?b then _ else _] => destruct b
         end;
    repeat (rewrite written_realtime
            || cbn [realtimeIntervalId set_maximumPossibleGainsFromTrade]);
    done.
Qed.

(** X15. A tick of the real-time timer before the end of the period (the
    clock less the offset sim.realtime is below the end time) lets
    the agents run up to now and nothing more: it does not resolve the
    period, the timer stays set, the period counter stays, and no row of the
    end of the period is written. *)
Theorem onRealtimeWake_before_the_end (endTime offset : Qc)
    (sim : Simulation) :
  realtime sim = Some offset →
  Date_now (outside sim) / #1000 - offset < endTime →
  match onRealtimeWake endTime sim with
  | (r, sim') =>
      r ≠ Normal true
      ∧ realtimeIntervalId sim' = realtimeIntervalId sim
      ∧ period sim' = period sim
      ∧ ∀ name, name ∈ ["profit"; "ohlc"; "volume"; "effalloc"]%string →
          logs sim' !! name = logs sim !! name
  end.
Proof.
  intros Hoffset Hnow. unfold onRealtimeWake.
  rewrite (bind_normal get _ sim sim sim) by done.
  rewrite Hoffset. change (default 0 (Some offset)) with offset.
  rewrite bool_decide_eq_false_2 by by apply Qclt_not_le.
  set (now := _ - _).
  destruct (syncRun_quiet (Some now) sim) as (_ & Hp & _ & _ & Hid & _ & Hl).
  unfold mbind, M_bind, bind.
  by destruct (syncRun (Some now) sim) as [[[]|e] s].
Qed.

(** X16. The tick that reaches the end time clears the timer and forgets
    realtimeIntervalId before the agents run, so it is forgotten even when a
    listener throws.  When the tick completes it resolves the period, the
    volume log has one more row, for the current period, and
    periodTradePrices is empty. *)
Theorem onRealtimeWake_at_the_end (endTime offset : Qc) (sim : Simulation)
    (lv : Log) :
  realtime sim = Some offset →
  endTime ≤ Date_now (outside sim) / #1000 - offset →
  logs sim !! "volume" = Some lv →
  match onRealtimeWake endTime sim with
  | (Normal r, sim') =>
      r = true
      ∧ realtimeIntervalId sim' = None
      ∧ periodTradePrices sim' = []
      ∧ period sim' = period sim
      ∧ ∃ n, data <$> logs sim' !! "volume"
             = Some (data lv ++ [[Num (period sim); Num n]])
  | (Throw _, sim') =>
      realtimeIntervalId sim' = None
      ∧ logs sim' !! "volume" = Some lv
  end.
Proof.
  intros Hoffset Hnow Hv. unfold onRealtimeWake.
  rewrite (bind_normal get _ sim sim sim) by done.
  rewrite Hoffset. change (default 0 (Some offset)) with offset.
  rewrite bool_decide_eq_true_2 by done.
  do 2 (erewrite bind_normal by (unfold on_outside, modify; reflexivity)).
  set (s1 := set_realtimeIntervalId None _).
  destruct (syncRun_quiet (Some endTime) s1) as (_ & Hp & _ & _ & Hid & _ & Hl).
  specialize (Hl "volume" ltac:(by do 2 right; left)).
  unfold atEndOfPeriod, on_outside, modify, mbind, M_bind, bind.
  destruct (syncRun (Some endTime) s1) as [[[]|e] s]; cbn [snd] in *;
    [|by rewrite Hl].
  rewrite logPeriod_run. cbn [ret period periodTradePrices
    realtimeIntervalId logs set_periodTradePrices].
  set (s' := set_outside _ s).
  destruct (after_effalloc_frame s') as [_ Hp'].
  rewrite after_effalloc_realtime, Hp'.
  split; [done|]. split; [done|]. split; [done|]. split; [done|].
  eexists. rewrite logs_after_effalloc by done.
  unfold before_effalloc. rewrite !logs_written.
  repeat (case_decide; try done); [].
  subst s'. simpl. rewrite Hl, Hp. subst s1. simpl. by rewrite Hv.
Qed.

(** ** run on a simulation that has run its periods *)

(** X17. When the period counter has reached config.periods (for one, when
    config.periods is 0) the synchronous run returns at once: no period is
    run and no callback called.  The asynchronous run tests the counter only
    after a period: it starts one more period all the same, so the counter
    ends above config.periods. *)
Theorem run_on_a_finished_simulation (fuel : nat)
    (u : option (M Returned_value)) (d : option Qc) (sim : Simulation) :
  Config.periods (config sim) ≤ period sim →
  run fuel (Some {| sync := Some true; update := u; delay := d |}) sim
  = (Normal run_returned, sim)
  ∧ period (run fuel (Some {| sync := Some false; update := u; delay := d |})
              sim).2
    = period sim + 1
  ∧ period (run fuel None sim).2 = period sim + 1.
Proof.
  intros Hdone. split; [|split].
  - assert (run_while fuel u sim = (Normal Finished, sim)) as Hloop.
    { destruct fuel; simpl;
        rewrite (bind_normal get _ sim sim sim) by done;
        by rewrite bool_decide_eq_false_2 by (by apply Qcle_not_lt). }
    unfold run. simpl. by rewrite (bind_normal _ _ _ _ _ Hloop).
  - unfold run. simpl. assert (Hp := runPeriod_async_period sim).
    unfold mbind, M_bind, bind. by destruct (runPeriod false sim) as [[p|err] s].
  - unfold run. simpl. assert (Hp := runPeriod_async_period sim).
    unfold mbind, M_bind, bind. by destruct (runPeriod false sim) as [[p|err] s].
Qed.

(** ** The size of the gains from trade *)

Lemma gains_loop_ge buyerV : ∀ sellerC result,
  result ≤ gains_loop buyerV sellerC result.
Proof.
  induction buyerV as [|b buyerV IH]; intros [|c sellerC] result; simpl;
    try apply Qcle_refl.
  case_bool_decide as Hcb; [|apply Qcle_refl].
  trans (result + (b - c)); [|apply IH].
  rewrite <-(Qcplus_0_r result) at 1. apply Qcplus_le_mono_l.
  apply Qclt_le_weak. unfold Qcminus.
  rewrite <-(Qcplus_opp_r c). by apply Qcplus_lt_mono_r.
Qed.

Lemma gains_loop_positive b buyerV c sellerC :
  0 < gains_loop (b :: buyerV) (c :: sellerC) 0 ↔ c < b.
Proof.
  simpl. case_bool_decide as Hcb.
  - split; [done|]. intros _.
    apply Qclt_le_trans with (0 + (b - c)); [|apply gains_loop_ge].
    rewrite Qcplus_0_l. unfold Qcminus.
    rewrite <-(Qcplus_opp_r c). by apply Qcplus_lt_mono_r.
  - split; [|done]. intros Hlt. by apply Qclt_not_eq in Hlt.
Qed.

Lemma Array_sort_head compareFn
    `{!Total (before compareFn), !Transitive (before compareFn)} l x rest :
  Array_sort compareFn l = x :: rest →
  x ∈ l ∧ ∀ y, y ∈ l → before compareFn x y.
Proof.
  intros Hsort.
  assert (Hperm := Array_sort_Permutation compareFn l).
  assert (Hsorted := Array_sort_Sorted compareFn l).
  rewrite Hsort in Hperm, Hsorted.
  apply Sorted_StronglySorted in Hsorted; [|apply _].
  inversion_clear Hsorted as [|?? _ Hall].
  split; [rewrite <-Hperm; by left|].
  intros y Hy. rewrite <-Hperm in Hy.
  apply elem_of_cons in Hy as [->|Hy].
  - destruct (total (before compareFn) x x) as [Hxx|Hxx]; exact Hxx.
  - apply list_elem_of_In in Hy. eapply Forall_forall in Hall; [exact Hall|exact Hy].
Qed.

Lemma Array_sort_nil compareFn l : Array_sort compareFn l = [] → l = [].
Proof.
  intros Hsort. assert (Hperm := Array_sort_Permutation compareFn l).
  rewrite Hsort in Hperm. symmetry. by apply Permutation_nil_l.
Qed.

(** X18. The first call of getMaximumPossibleGainsFromTrade never returns a
    negative number, and it returns a positive one exactly when some
    configured buyer value is above some configured seller cost. *)
Theorem maximum_gains_positive_iff_profitable_pair (sim : Simulation)
    (values costs : list Qc) :
  truthy (maximumPossibleGainsFromTrade sim) = false →
  Config.buyerValues (config sim) = Some values →
  Config.sellerCosts (config sim) = Some costs →
  ∃ g sim',
    getMaximumPossibleGainsFromTrade sim = (Normal g, sim')
    ∧ 0 ≤ g
    ∧ (0 < g ↔ ∃ b c, b ∈ values ∧ c ∈ costs ∧ c < b).
Proof.
  intros Hmemo Hvalues Hcosts. eexists _, _.
  split; [apply getMaximumPossibleGainsFromTrade_run|].
  unfold maximumGains. rewrite Hmemo, Hvalues, Hcosts.
  split; [apply gains_loop_ge|].
  destruct (Array_sort (λ a b, b - a) values) as [|b buyerV] eqn:Hb.
  { apply Array_sort_nil in Hb as ->. simpl. split.
    - intros Hlt. by apply Qclt_not_eq in Hlt.
    - intros (b & c & Hin & _). by apply not_elem_of_nil in Hin. }
  destruct (Array_sort (λ a b, a - b) costs) as [|c sellerC] eqn:Hc.
  { apply Array_sort_nil in Hc as ->. simpl. split.
    - intros Hlt. by apply Qclt_not_eq in Hlt.
    - intros (b' & c & _ & Hin & _). by apply not_elem_of_nil in Hin. }
  apply Array_sort_head in Hb as [Hb Hmax]; [|apply _..].
  apply Array_sort_head in Hc as [Hc Hmin]; [|apply _..].
  rewrite gains_loop_positive. split.
  - intros Hlt. by exists b, c.
  - intros (b' & c' & Hb' & Hc' & Hlt).
    apply Hmax in Hb'. apply Hmin in Hc'. unfold before in Hb', Hc'.
    simpl in Hb', Hc'.
    apply (proj1 (Qcminus_nonpos _ _)) in Hb'.
    apply (proj1 (Qcminus_nonpos _ _)) in Hc'.
    eapply Qcle_lt_trans; [exact Hc'|].
    eapply Qclt_le_trans; [exact Hlt|exact Hb'].
Qed.

(** ** Log.lastByKey and the juicy prices *)

Lemma indexOf_lookup k array i : indexOf k array = Some i → array !! i = Some k.
Proof.
  revert i. induction array as [|x rest IH]; intros i; simpl; [done|].
  case_decide as Hx; [by intros [= <-]; subst|].
  destruct (indexOf k rest) as [j|]; [|done]. intros [= <-]. by apply IH.
Qed.

Lemma indexOf_elem k array : k ∈ array → is_Some (indexOf k array).
Proof.
  induction array as [|x rest IH]; [by intros ?%not_elem_of_nil|].
  intros Hk. simpl. case_decide as Hx; [done|].
  apply elem_of_cons in Hk as [->|Hk]; [done|].
  destruct (IH Hk) as [j ->]. done.
Qed.

(** X19. On a log that holds nothing but its header, lastByKey(k) answers
    the column name [k] itself for every column of the header: setHeader
    writes the header as a row, and that row is the last one. *)
Theorem Log_lastByKey_of_header_only (fname : string) (h : Row) (k : string) :
  Str k ∈ h →
  Log_lastByKey k (Log_setHeader (Some h) (Log_new fname)) = Some (Str k).
Proof.
  intros Hk. unfold Log_lastByKey. simpl.
  destruct (indexOf_elem _ _ Hk) as [i Hi].
  rewrite bool_decide_eq_true_2 by (intros ->; by apply not_elem_of_nil in Hk).
  simpl. rewrite Hi. simpl. by apply indexOf_lookup.
Qed.

(** X20. write and lastByKey: after a row has been written, lastByKey(k)
    is the cell of that row in the column the header gives to [k]; writing
    undefined does not change what lastByKey answers. *)
Theorem Log_lastByKey_after_write (l : Log) (h r : Row) (k : string) (i : nat) :
  header l = Some h →
  indexOf (Str k) h = Some i →
  Log_lastByKey k (Log_write (Some r) l) = r !! i
  ∧ Log_lastByKey k (Log_write None l) = Log_lastByKey k l.
Proof.
  intros Hh Hi. split; [|done].
  unfold Log_lastByKey. simpl. rewrite Hh.
  rewrite bool_decide_eq_true_2 by (by intros ->). simpl.
  case_bool_decide as Hr; simpl; [by rewrite Hi|].
  by destruct r.
Qed.

(** X21. The juicy prices a KaplanSniperAgent reads after the end of a
    period: when the period had trades they are its highest price (bid) and
    its lowest price (ask); when it had none they are what they were before,
    since no ohlc row is written. *)
Theorem juicy_prices_after_logPeriod (sim : Simulation) (lo : Log) :
  logs sim !! "ohlc" = Some lo →
  header lo = Some (Str <$> ["period"; "open"; "high"; "low"; "close"]%string) →
  ∃ sim',
    logPeriod sim = (Normal (), sim')
    ∧ (periodTradePrices sim = [] →
       getJuicyBidPrice sim' = getJuicyBidPrice sim
       ∧ getJuicyAskPrice sim' = getJuicyAskPrice sim)
    ∧ (periodTradePrices sim ≠ [] →
       ∃ h l,
         getJuicyBidPrice sim' = Some (Num h)
         ∧ getJuicyAskPrice sim' = Some (Num l)
         ∧ h ∈ periodTradePrices sim ∧ l ∈ periodTradePrices sim
         ∧ ∀ p, p ∈ periodTradePrices sim → l ≤ p ∧ p ≤ h).
Proof.
  intros Ho Hh. eexists. split; [apply logPeriod_run|].
  assert (logs (set_periodTradePrices [] (after_effalloc sim)) !! "ohlc"
          = Some (Log_write (ohlc sim) lo)) as Hohlc.
  { cbn [logs set_periodTradePrices]. rewrite logs_after_effalloc by done.
    unfold before_effalloc. rewrite !logs_written.
    repeat (case_decide; try done); []. by rewrite Ho. }
  unfold getJuicyBidPrice, getJuicyAskPrice. rewrite Hohlc, Ho.
  unfold ohlc. destruct (periodTradePrices sim) as [|o rest]; [by split|].
  split; [done|]. intros _.
  destruct (Math_max_spec o rest) as [Hmax1 Hmax2].
  destruct (Math_min_spec o rest) as [Hmin1 Hmin2].
  exists (Math_max o rest), (Math_min o rest).
  unfold Log_lastByKey. simpl. rewrite Hh. simpl.
  repeat split; auto.
Qed.

(** ** Construction *)

(** X22. initLogs creates the nine logs of logNames, or only trade, profit,
    ohlc, volume and effalloc when config.withoutOrderLogs is set.  Each new
    log holds its header as first and only row; the profit log, which has no
    header, is empty. *)
Theorem initLogs_creates_the_logs (sim : Simulation) :
  dom (logs (initLogs sim).2)
  = list_to_set
      (if Config.withoutOrderLogs (config sim)
       then ["trade"; "profit"; "ohlc"; "volume"; "effalloc"]%string
       else logNames)
  ∧ ∀ name l, logs (initLogs sim).2 !! name = Some l →
      header l = logHeaders !! name
      ∧ data l = match logHeaders !! name with Some h => [h] | None => [] end.
Proof.
  assert (dom (logs (initLogs sim).2)
          = list_to_set
              (if Config.withoutOrderLogs (config sim)
               then ["trade"; "profit"; "ohlc"; "volume"; "effalloc"]%string
               else logNames)) as Hdom.
  { unfold initLogs. rewrite (bind_normal get _ sim sim sim) by done.
    unfold modify. cbn [snd logs set_logs].
    destruct (Config.withoutOrderLogs (config sim)); vm_compute; reflexivity. }
  split; [done|]. intros name l Hl.
  assert (name ∈ dom (logs (initLogs sim).2)) as Hname by by eapply elem_of_dom_2.
  rewrite Hdom in Hname. apply elem_of_list_to_set in Hname.
  revert Hl. unfold initLogs. rewrite (bind_normal get _ sim sim sim) by done.
  unfold modify. cbn [snd logs set_logs].
  destruct (Config.withoutOrderLogs (config sim));
    repeat (apply elem_of_cons in Hname as [->|Hname]);
    try (by apply not_elem_of_nil in Hname);
    vm_compute; intros [= <-]; split; reflexivity.
Qed.

Lemma constructor_logs cfg e sim :
  constructor cfg e = (Normal (), sim) →
  logs sim = logs (initLogs (blank cfg e)).2.
Proof.
  unfold constructor. intros Hnew.
  unfold mbind, M_bind, bind in Hnew.
  destruct (initLogs (blank cfg e)) as [[[]|?] s1] eqn:H1; [|done].
  assert (Hm := initMarket_logs s1).
  destruct (initMarket s1) as [[[]|?] s2] eqn:H2; [|done].
  assert (Ha := initAgents_logs s2).
  destruct (initAgents s2) as [[[]|?] s3] eqn:H3; [|done].
  simpl in Hnew. injection Hnew as <-. simpl in *.
  unfold same_logs in *. congruence.
Qed.

(** X23. On a new simulation, before any period has ended with a trade, the
    juicy prices are not numbers: getJuicyBidPrice answers the column name
    'high' and getJuicyAskPrice the column name 'low', the header being the
    last row of the ohlc log. *)
Theorem juicy_prices_of_a_new_simulation (cfg : Config.t) (e : E)
    (sim : Simulation) :
  constructor cfg e = (Normal (), sim) →
  getJuicyBidPrice sim = Some (Str "high")
  ∧ getJuicyAskPrice sim = Some (Str "low").
Proof.
  intros Hnew. unfold getJuicyBidPrice, getJuicyAskPrice.
  rewrite (constructor_logs _ _ _ Hnew).
  unfold initLogs. rewrite (bind_normal get _ _ _ _) by done.
  unfold modify. cbn [snd logs set_logs blank config].
  destruct (Config.withoutOrderLogs cfg); vm_compute; by split.
Qed.

#[local] Abbreviation same_numbers := (@same_numbers E).

#[local] Instance same_numbers_preorder : PreOrder same_numbers.
Proof.
  split; [done|].
  intros s1 s2 s3 (?&?&?&?&?&?) (?&?&?&?&?&?). repeat split; congruence.
Qed.

Lemma count_inv (n : option Qc) (values : option (list Qc)) (msg : string)
    (st : Simulation) r s1 :
  (if truthy n then ret (default 0 n)
   else match values with
        | Some v => ret #(Z.of_nat (length v))
        | None => throw (TypeError msg)
        end) st = (r, s1) →
  s1 = st
  ∧ match r with
    | Normal x => agent_count n values = Some x
    | Throw err => agent_count n values = None ∧ err = TypeError msg
    end.
Proof.
  unfold agent_count. destruct n as [q|]; simpl.
  - case_bool_decide; [by intros [= <- <-]|].
    destruct values; by intros [= <- <-].
  - destruct values; by intros [= <- <-].
Qed.

Lemma initAgents_inv sim r sim' (buyers sellers : option Qc) :
  initAgents sim = (r, sim') →
  buyers = agent_count (Config.numberOfBuyers (config sim))
             (Config.buyerValues (config sim)) →
  sellers = agent_count (Config.numberOfSellers (config sim))
              (Config.sellerCosts (config sim)) →
  match r with
  | Normal _ =>
      ∃ nb ns, buyers = Some nb ∧ sellers = Some ns ∧ nb ≠ 0 ∧ ns ≠ 0
        ∧ numberOfBuyers sim' = nb ∧ numberOfSellers sim' = ns
        ∧ numberOfAgents sim' = nb + ns
        ∧ periodDuration sim'
          = or_else (Config.periodDuration (config sim)) #1000
        ∧ realtimeIntervalId sim' = realtimeIntervalId sim
        ∧ maximumPossibleGainsFromTrade sim'
          = maximumPossibleGainsFromTrade sim
  | Throw err => True
  end.
Proof.
  unfold initAgents. intros Hrun -> ->.
  apply bind_inv in Hrun as [(? & [=] & _)|(? & ? & [= <- <-] & Hrun)].
  do 3 apply bind_inv in Hrun as [(? & [=] & _)|(? & ? & [= <- <-] & Hrun)].
  apply bind_inv in Hrun as [(err & Hthrow & ->)|(nb & s1 & Hnb & Hrun)]; [done|].
  apply count_inv in Hnb as (-> & Hb).
  apply bind_inv in Hrun as [(err & Hthrow & ->)|(ns & s2 & Hns & Hrun)]; [done|].
  apply count_inv in Hns as (-> & Hs).
  do 3 apply bind_inv in Hrun as [(? & [=] & _)|(? & ? & [= <- <-] & Hrun)].
  destruct (bool_decide (nb = 0) || bool_decide (ns = 0)) eqn:Hzero.
  { by injection Hrun as <- <-. }
  apply orb_false_iff in Hzero as [Hnb0%bool_decide_eq_false Hns0%bool_decide_eq_false].
  do 2 apply bind_inv in Hrun as [(? & [=] & _)|(? & ? & [= <- <-] & Hrun)].
  match type of Hrun with
  | ?m ?s = _ =>
      assert (preserves same_numbers m) as Hrest;
      [|specialize (Hrest s); rewrite Hrun in Hrest]
  end.
  { unfold newBuyerAgent, newSellerAgent, newAgentFactory, teachAgent.
    frame; done. }
  destruct Hrest as (H1 & H2 & H3 & H4 & H5 & H6). simpl in *.
  destruct r as [[]|err]; [|done].
  exists nb, ns. by repeat split.
Qed.

(** X24. A constructor that completes has counted its agents:
    numberOfBuyers is config.numberOfBuyers, or the length of
    config.buyerValues when that is missing or zero, likewise
    numberOfSellers; neither is zero, numberOfAgents is their sum, and
    periodDuration is config.periodDuration, or 1000 when that is missing or
    zero.  The simulation starts in period 0 with no price recorded, no timer
    and no remembered gains. *)
Theorem constructor_counts_the_agents (cfg : Config.t) (e : E)
    (sim : Simulation) :
  constructor cfg e = (Normal (), sim) →
  agent_count (Config.numberOfBuyers cfg) (Config.buyerValues cfg)
  = Some (numberOfBuyers sim)
  ∧ agent_count (Config.numberOfSellers cfg) (Config.sellerCosts cfg)
    = Some (numberOfSellers sim)
  ∧ numberOfBuyers sim ≠ 0
  ∧ numberOfSellers sim ≠ 0
  ∧ numberOfAgents sim = numberOfBuyers sim + numberOfSellers sim
  ∧ periodDuration sim = or_else (Config.periodDuration cfg) #1000
  ∧ period sim = 0
  ∧ periodTradePrices sim = []
  ∧ realtimeIntervalId sim = None
  ∧ maximumPossibleGainsFromTrade sim = None.
Proof.
  unfold constructor. intros Hnew.
  apply bind_inv in Hnew as [(? & _ & [=])|([] & s1 & H1 & Hnew)].
  apply bind_inv in Hnew as [(? & _ & [=])|([] & s2 & H2 & Hnew)].
  apply bind_inv in Hnew as [(? & _ & [=])|([] & s3 & H3 & Hnew)].
  apply bind_inv in Hnew as [(? & [=] & _)|(? & ? & [= <- <-] & Hnew)].
  injection Hnew as <-.
  assert (preserves same_config initLogs) as Hc1 by (unfold initLogs; frame; done).
  assert (preserves same_numbers initLogs) as Hn1 by (unfold initLogs; frame; done).
  assert (preserves same_config initMarket) as Hc2 by (unfold initMarket; frame; done).
  assert (preserves same_numbers initMarket) as Hn2 by (unfold initMarket; frame; done).
  specialize (Hc1 (blank cfg e)). specialize (Hn1 (blank cfg e)).
  specialize (Hc2 s1). specialize (Hn2 s1).
  rewrite H1 in Hc1, Hn1. rewrite H2 in Hc2, Hn2.
  unfold same_config in *. simpl in Hc1, Hc2.
  destruct Hn1 as (_ & _ & _ & _ & Hid1 & Hm1).
  destruct Hn2 as (_ & _ & _ & _ & Hid2 & Hm2). simpl in *.
  assert (config s2 = cfg) as Hcfg by congruence.
  eapply initAgents_inv in H3; [|reflexivity..]. simpl in H3.
  rewrite Hcfg in H3.
  destruct H3 as (nb & ns & Hb & Hs & Hnb & Hns & <- & <- & Hsum & Hd & Hid & Hm).
  repeat split; try done; congruence.
Qed.

Lemma count_run (n : option Qc) (values : option (list Qc)) (msg : string)
    (st : Simulation) x :
  agent_count n values = Some x →
  (if truthy n then ret (default 0 n)
   else match values with
        | Some v => ret #(Z.of_nat (length v))
        | None => throw (TypeError msg)
        end) st = (Normal x, st).
Proof.
  unfold agent_count. destruct (truthy n) eqn:Hn.
  - by intros ->.
  - destruct values; [|done]. by intros [= <-].
Qed.

Lemma initAgents_empty_side sim nb ns :
  agent_count (Config.numberOfBuyers (config sim))
    (Config.buyerValues (config sim)) = Some nb →
  agent_count (Config.numberOfSellers (config sim))
    (Config.sellerCosts (config sim)) = Some ns →
  nb = 0 ∨ ns = 0 →
  ∃ sim',
    initAgents sim
    = (Throw (Error "single-market-robot-simulation: can not determine numberOfBuyers and/or numberOfSellers "),
       sim')
    ∧ config sim' = rates_written (config sim).
Proof.
  intros Hb Hs Hzero. unfold initAgents.
  rewrite (bind_normal get _ sim sim sim) by done.
  do 3 (erewrite bind_normal by (unfold on_outside, modify; reflexivity)).
  erewrite bind_normal by (apply count_run; exact Hb).
  erewrite bind_normal by (apply count_run; exact Hs).
  do 3 (erewrite bind_normal by (unfold modify; reflexivity)).
  assert (bool_decide (nb = 0) || bool_decide (ns = 0) = true) as ->.
  { destruct Hzero as [-> | ->]; rewrite (bool_decide_eq_true_2 (0 = 0)) by done;
      [done|apply orb_true_r]. }
  eexists. split; [reflexivity|]. done.
Qed.

(** X25. The constructor fails when it finds no buyer or no seller: with
    both counts readable and one of them zero (an empty buyerValues or
    sellerCosts array and no explicit count) it throws the error "can not
    determine numberOfBuyers and/or numberOfSellers"; by then it has written
    the two rate arrays of the caller's configuration. *)
Theorem constructor_rejects_an_empty_side (cfg : Config.t) (e : E)
    (nb ns : Qc) :
  agent_count (Config.numberOfBuyers cfg) (Config.buyerValues cfg) = Some nb →
  agent_count (Config.numberOfSellers cfg) (Config.sellerCosts cfg) = Some ns →
  nb = 0 ∨ ns = 0 →
  ∃ sim,
    constructor cfg e
    = (Throw (Error "single-market-robot-simulation: can not determine numberOfBuyers and/or numberOfSellers "),
       sim)
    ∧ config sim = rates_written cfg.
Proof.
  intros Hb Hs Hzero. unfold constructor.
  assert (∃ s1, initLogs (blank cfg e) = (Normal (), s1) ∧ config s1 = cfg)
    as (s1 & H1 & Hc1).
  { unfold initLogs. rewrite (bind_normal get _ _ _ _) by done.
    by eexists. }
  assert (∃ s2, initMarket s1 = (Normal (), s2) ∧ config s2 = cfg)
    as (s2 & H2 & Hc2).
  { unfold initMarket, on_outside, modify.
    rewrite (bind_normal get _ _ _ _) by done.
    erewrite bind_normal by reflexivity. by eexists. }
  rewrite (bind_normal _ _ _ _ _ H1), (bind_normal _ _ _ _ _ H2).
  rewrite <-Hc2 in Hb, Hs.
  destruct (initAgents_empty_side s2 nb ns Hb Hs Hzero) as (s3 & H3 & Hc3).
  rewrite (bind_throw _ _ _ _ _ H3). exists s3. by rewrite Hc3, Hc2.
Qed.

Lemma count_throw (n : option Qc) (values : option (list Qc)) (msg : string)
    (st : Simulation) :
  agent_count n values = None →
  (if truthy n then ret (default 0 n)
   else match values with
        | Some v => ret #(Z.of_nat (length v))
        | None => throw (TypeError msg)
        end) st = (Throw (TypeError msg), st).
Proof.
  unfold agent_count. destruct (truthy n) eqn:Hn.
  - intros ->. done.
  - by destruct values.
Qed.

(** X26. The constructor fails with a TypeError when a count cannot be
    read at all: no usable config.numberOfBuyers and no buyerValues array, or
    the same on the sellers' side.  This happens before the rates are
    written: the caller's configuration is untouched. *)
Theorem constructor_needs_a_count_or_an_array (cfg : Config.t) (e : E) :
  agent_count (Config.numberOfBuyers cfg) (Config.buyerValues cfg) = None
  ∨ agent_count (Config.numberOfSellers cfg) (Config.sellerCosts cfg) = None →
  ∃ msg sim,
    constructor cfg e = (Throw (TypeError msg), sim)
    ∧ config sim = cfg.
Proof.
  intros Hnone. unfold constructor.
  assert (∃ s1, initLogs (blank cfg e) = (Normal (), s1) ∧ config s1 = cfg)
    as (s1 & H1 & Hc1).
  { unfold initLogs. rewrite (bind_normal get _ _ _ _) by done.
    by eexists. }
  assert (∃ s2, initMarket s1 = (Normal (), s2) ∧ config s2 = cfg)
    as (s2 & H2 & Hc2).
  { unfold initMarket, on_outside, modify.
    rewrite (bind_normal get _ _ _ _) by done.
    erewrite bind_normal by reflexivity. by eexists. }
  rewrite (bind_normal _ _ _ _ _ H1), (bind_normal _ _ _ _ _ H2).
  assert (∃ msg s3, initAgents s2 = (Throw (TypeError msg), s3)
                    ∧ config s3 = cfg) as (msg & s3 & H3 & Hc3).
  { unfold initAgents. rewrite (bind_normal get _ _ _ _) by done.
    do 3 (erewrite bind_normal by (unfold on_outside, modify; reflexivity)).
    rewrite Hc2.
    destruct (agent_count (Config.numberOfBuyers cfg) (Config.buyerValues cfg))
      as [nb|] eqn:Hb.
    - destruct Hnone as [?|Hs]; [done|].
      erewrite bind_normal by (apply count_run; exact Hb).
      erewrite bind_throw by (apply count_throw; exact Hs).
      by eexists _, _.
    - erewrite bind_throw by (apply count_throw; exact Hb).
      by eexists _, _. }
  rewrite (bind_throw _ _ _ _ _ H3). by exists msg, s3.
Qed.

End properties.

(** * Examples on the scripted market *)

Lemma logTrade_throws_on_totalQ_2 :
  ∃ e, logTrade Scripted.trade_totalQ2 Scripted.sim3 = (Throw e, Scripted.sim3).
Proof.
  apply logTrade_throws_on_malformed_trade. left. vm_compute. discriminate.
Defined.

(** The example of the specification: price 50 in period 3, value 80,
    cost 20. *)
Lemma logTrade_row_example :
  ∃ sim',
    logTrade Scripted.trade50 Scripted.sim3 = (Normal (), sim')
    ∧ periodTradePrices sim' = [ #50]
    ∧ data <$> logs sim' !! "trade"
      = Some [ Str <$> ["period"; "t"; "tp"; "price"; "buyerAgentId";
                        "buyerValue"; "buyerProfit"; "sellerAgentId";
                        "sellerCost"; "sellerProfit"]%string;
               Num <$> [ #3; #3400; #400; #50; #11; #80; #30; #12; #20; #30] ].
Proof.
  destruct (logTrade_writes_trade_row Scripted.trade50 Scripted.sim3
              1 0 1 [ #3400; #11] [ #3390; #12] #11 #12 #50
              Scripted.buyer Scripted.seller
              (Scripted.log_of "trade" Scripted.sim3))
    as (sim' & Hrun & Hprices & Hrow);
    [reflexivity | reflexivity | reflexivity | reflexivity | reflexivity
    | reflexivity | reflexivity | reflexivity | reflexivity
    | vm_compute; discriminate
    | vm_compute; reflexivity | vm_compute; reflexivity
    | vm_compute; reflexivity |].
  exists sim'. split; [exact Hrun|]. split; [rewrite Hprices; reflexivity|].
  rewrite Hrow. compute_done.
Defined.

Lemma logOrder_skips_stray_order :
  (∀ prefix, logOrder prefix Scripted.stray_order Scripted.sim3
             = (Normal (), Scripted.sim3))
  ∧ on_event (preorder Scripted.stray_order) Scripted.sim3
    = (Normal (), Scripted.sim3)
  ∧ on_event (reject Scripted.stray_order) Scripted.sim3
    = (Normal (), Scripted.sim3).
Proof.
  apply logOrder_skips_unusable_order. left. vm_compute. reflexivity.
Defined.

Lemma logPeriod_without_trades_example :
  ∃ sim',
    logPeriod Scripted.sim3 = (Normal (), sim')
    ∧ data <$> logs sim' !! "ohlc"
      = Some [ Str <$> ["period"; "open"; "high"; "low"; "close"]%string ]
    ∧ data <$> logs sim' !! "volume"
      = Some [ Str <$> ["period"; "volume"]%string; [Num #3; Num 0] ].
Proof.
  destruct (logPeriod_ohlc_and_volume Scripted.sim3
              (Scripted.log_of "ohlc" Scripted.sim3)
              (Scripted.log_of "volume" Scripted.sim3))
    as (sim' & Hrun & Hnone & _);
    [vm_compute; reflexivity | vm_compute; reflexivity |].
  destruct Hnone as [Hohlc Hvolume]; [reflexivity|].
  exists sim'. split; [exact Hrun|]. split.
  - rewrite Hohlc. reflexivity.
  - rewrite Hvolume. reflexivity.
Defined.

(** The two agents hold 30 each and the maximum gains are 80 - 20 = 60. *)
Lemma logPeriod_effalloc_example :
  ∃ sim',
    logPeriod Scripted.sim3 = (Normal (), sim')
    ∧ data <$> logs sim' !! "effalloc"
      = Some [ Str <$> ["period"; "efficiencyOfAllocation"]%string;
               [Num #3; Num #100] ].
Proof.
  destruct (logPeriod_effalloc Scripted.sim3
              (Scripted.log_of "effalloc" Scripted.sim3))
    as (g & s1 & sim' & Hg & Hrun & Hpos & _);
    [vm_compute; reflexivity|].
  exists sim'. split; [exact Hrun|].
  rewrite getMaximumPossibleGainsFromTrade_run in Hg.
  injection Hg as <- _.
  rewrite Hpos by (vm_compute; reflexivity).
  compute_done.
Defined.

Lemma run_sync_two_periods_example :
  ∃ sim',
    run 2 (Some {| sync := Some true; update := None; delay := None |})
      Scripted.sim0
    = (Normal run_returned, sim')
    ∧ period sim' = #2
    ∧ data <$> logs sim' !! "volume"
      = Some [ Str <$> ["period"; "volume"]%string;
               [Num #1; Num #1]; [Num #2; Num #1] ].
Proof.
  destruct (run_sync_counts_periods Scripted.configuration Scripted.world 2 2
              Scripted.sim0)
    as (r & sim' & Hrun & _ & Hreturned);
    [vm_compute; reflexivity | reflexivity | lia |].
  assert (r = Normal run_returned) as ->.
  { vm_compute in Hrun. injection Hrun as <- _. reflexivity. }
  destruct (Hreturned eq_refl) as [Hperiod _].
  exists sim'. split; [exact Hrun|]. split; [exact Hperiod|].
  vm_compute in Hrun. injection Hrun as <-.
  compute_done.
Defined.

Lemma runPeriod_realtime_guard_example :
  ∃ sim',
    runPeriod false Scripted.realtime_sim1
    = (Normal (Rejected "sim has unexpected realtimeIntervalId"), sim')
    ∧ periodTradePrices sim' = periodTradePrices Scripted.realtime_sim1
    ∧ logs sim' = logs Scripted.realtime_sim1
    ∧ period sim' = period Scripted.realtime_sim1 + 1
    ∧ outside sim'
      = clearInterval 1
          (xMarket_clear
             (pool_initPeriod (period Scripted.realtime_sim1 + 1)
                (outside Scripted.realtime_sim1))).
Proof.
  apply runPeriod_realtime_guard; vm_compute; reflexivity.
Defined.

(** Against C1 as the specification states it: the second real-time
    runPeriod is rejected, and the period counter has gone from 1 to 2. *)
Lemma runPeriod_realtime_guard_moves_period :
  Config.realtime (config Scripted.realtime_sim1) = true
  ∧ realtimeIntervalId Scripted.realtime_sim1 = Some 1%nat
  ∧ (runPeriod false Scripted.realtime_sim1).1
    = Normal (Rejected "sim has unexpected realtimeIntervalId")
  ∧ period Scripted.realtime_sim1 = 1
  ∧ period (runPeriod false Scripted.realtime_sim1).2 = 2
  ∧ period (runPeriod false Scripted.realtime_sim1).2
    ≠ period Scripted.realtime_sim1.
Proof.
  repeat split; try (vm_compute; reflexivity);
    try (apply Qc_is_canon; vm_compute; reflexivity).
  vm_compute. discriminate.
Qed.

(** C4. The configuration passed to the constructor does not stay as the
    caller gave it.  The comment on this.config says "copy of config as
    passed to constructor", but the constructor stores the caller's object
    itself and initAgents assigns config.buyerRate and config.sellerRate on
    it: a configuration given with no buyerRate and no sellerRate has both,
    equal to [1], once new Simulation(config) has returned. *)
Theorem constructor_writes_rates :
  Config.buyerRate Scripted.configuration = None
  ∧ Config.sellerRate Scripted.configuration = None
  ∧ Config.buyerRate (config (constructor Scripted.configuration Scripted.world).2)
    = Some [1]
  ∧ Config.sellerRate (config (constructor Scripted.configuration Scripted.world).2)
    = Some [1]
  ∧ config (constructor Scripted.configuration Scripted.world).2
    ≠ Scripted.configuration.
Proof.
  repeat split; try (vm_compute; reflexivity).
  intros Heq. apply (f_equal Config.buyerRate) in Heq. vm_compute in Heq.
  discriminate.
Qed.

(** C3. With values [1] and costs [2] the first call returns 0.  The zero
    is stored but reads as "not computed yet": once the caller has changed
    buyerValues to [10], the next call computes again and returns 8. *)
Theorem getMaximumPossibleGainsFromTrade_forgets_zero :
  let first := getMaximumPossibleGainsFromTrade Scripted.no_gains_sim in
  let changed :=
    set_config (Config.set_buyerValues (Some [ #10]) (config first.2)) first.2 in
  first.1 = Normal 0
  ∧ maximumPossibleGainsFromTrade first.2 = Some 0
  ∧ (getMaximumPossibleGainsFromTrade changed).1 = Normal #8.
Proof.
  repeat split; simpl; f_equal; apply Qc_is_canon; vm_compute; reflexivity.
Qed.

(** ** Examples for the further properties *)

(** The buyer's order to buy at 70 in period 3. *)
Lemma logOrder_buy_row_example :
  ∃ sim',
    logOrder EmptyString Scripted.buy_order Scripted.sim3 = (Normal (), sim')
    ∧ data <$> logs sim' !! "buyorder"
      = Some [ orderHeader;
               [ Num #3; Num #3400; Num #400; Num #11; Num 0; Num #70;
                 Num #80; Str EmptyString; Str EmptyString ] ]
    ∧ logs sim' !! "sellorder" = logs Scripted.sim3 !! "sellorder".
Proof.
  destruct (logOrder_writes_buy_row EmptyString Scripted.buy_order
              Scripted.sim3 Scripted.buyer #70
              (Scripted.log_of "buyorder" Scripted.sim3))
    as (sim' & Hrun & Hrow & Hother);
    [vm_compute; reflexivity | reflexivity | vm_compute; discriminate
    | reflexivity | vm_compute; reflexivity |].
  exists sim'. split; [exact Hrun|]. split; [|exact Hother].
  etrans; [exact Hrow|]. compute_done.
Defined.

(** The seller's order to sell at 30 in period 3, rejected by the market. *)
Lemma logOrder_sell_row_example :
  ∃ sim',
    logOrder "reject" Scripted.sell_order Scripted.sim3 = (Normal (), sim')
    ∧ data <$> logs sim' !! "rejectsellorder"
      = Some [ orderHeader;
               [ Num #3; Num #3390; Num #390; Num #12; Num 1;
                 Str EmptyString; Str EmptyString; Num #30; Num #20 ] ]
    ∧ logs sim' !! "rejectbuyorder" = logs Scripted.sim3 !! "rejectbuyorder".
Proof.
  destruct (logOrder_writes_sell_row "reject" Scripted.sell_order
              Scripted.sim3 Scripted.seller #30
              (Scripted.log_of "rejectsellorder" Scripted.sim3))
    as (sim' & Hrun & Hrow & Hother);
    [vm_compute; reflexivity | reflexivity | vm_compute; discriminate
    | reflexivity | vm_compute; reflexivity |].
  exists sim'. split; [exact Hrun|]. split; [|exact Hother].
  etrans; [exact Hrow|]. compute_done.
Defined.

(** Three prices recorded in period 3: the volume row is (3, 3). *)
Lemma logPeriod_volume_example :
  ∃ sim',
    logPeriod Scripted.sim3_traded = (Normal (), sim')
    ∧ data <$> logs sim' !! "volume"
      = Some [ Str <$> ["period"; "volume"]%string; [Num #3; Num #3] ].
Proof.
  destruct (logPeriod_volume_is_price_count Scripted.sim3_traded
              (Scripted.log_of "volume" Scripted.sim3_traded))
    as (sim' & Hrun & Hrow); [vm_compute; reflexivity|].
  exists sim'. split; [exact Hrun|]. etrans; [exact Hrow|]. compute_done.
Defined.

(** The first period of the scripted market: one trade, volume 1. *)
Lemma runPeriod_sync_volume_example :
  match runPeriod true Scripted.sim0 with
  | (Normal _, sim') =>
      ∃ rows,
        data <$> logs sim' !! "trade"
        = Some (data (Scripted.log_of "trade" Scripted.sim0) ++ rows)
        ∧ data <$> logs sim' !! "volume"
          = Some (data (Scripted.log_of "volume" Scripted.sim0) ++
                  [[Num (period Scripted.sim0 + 1);
                    Num #(Z.of_nat (length rows))]])
  | (Throw _, sim') =>
      ∃ rows,
        data <$> logs sim' !! "trade"
        = Some (data (Scripted.log_of "trade" Scripted.sim0) ++ rows)
        ∧ length (periodTradePrices sim') = length rows
        ∧ logs sim' !! "volume"
          = Some (Scripted.log_of "volume" Scripted.sim0)
  end.
Proof.
  apply runPeriod_sync_volume_counts_trade_rows; vm_compute; reflexivity.
Defined.

(** The first real-time period of the scripted market: timer 1 is set and
    the offset is 5000/1000 - 0. *)
Lemma runPeriod_realtime_start_example :
  ∃ sim',
    runPeriod false Scripted.realtime_sim0 = (Normal Pending, sim')
    ∧ realtimeIntervalId sim' = Some 1%nat
    ∧ realtime sim' = Some #5
    ∧ (runPeriod false sim').1
      = Normal (Rejected "sim has unexpected realtimeIntervalId").
Proof.
  destruct (runPeriod_realtime_start Scripted.realtime_sim0 Scripted.buyer 1
              (Scripted.with_intervals [1%nat] Scripted.world))
    as (sim' & Hrun & Hid & Hrt & _ & _ & _ & Hagain);
    [vm_compute; reflexivity | vm_compute; reflexivity
    | vm_compute; reflexivity | vm_compute; reflexivity
    | vm_compute; reflexivity |].
  exists sim'. split; [exact Hrun|]. split; [exact Hid|].
  split; [|exact Hagain].
  etrans; [exact Hrt|]. compute_done.
Defined.

Lemma runPeriod_realtime_needs_end_time_example :
  ∃ rest sim',
    runPeriod false Scripted.realtime_sim_without_end
    = (Normal (Rejected ("period endTime required for onRealtimeWake" +:+ rest)),
       sim')
    ∧ logs sim' = logs Scripted.realtime_sim_without_end
    ∧ periodTradePrices sim'
      = periodTradePrices Scripted.realtime_sim_without_end.
Proof.
  apply (runPeriod_realtime_needs_end_time Scripted.realtime_sim_without_end
           Scripted.buyer); vm_compute; reflexivity.
Defined.

(** Three more calls after the first real-time period has been started. *)
Lemma runPeriod_realtime_guard_is_sticky_example :
  let sim' := runPeriod_times 3 Scripted.realtime_sim1 in
  realtimeIntervalId sim' = Some 1%nat
  ∧ (runPeriod false sim').1
    = Normal (Rejected "sim has unexpected realtimeIntervalId")
  ∧ period sim' = period Scripted.realtime_sim1 + #(Z.of_nat 3)
  ∧ logs sim' = logs Scripted.realtime_sim1
  ∧ periodTradePrices sim' = periodTradePrices Scripted.realtime_sim1.
Proof.
  apply runPeriod_realtime_guard_is_sticky; vm_compute; reflexivity.
Defined.

(** A tick at time 0 of a period that ends at 1000. *)
Lemma onRealtimeWake_before_the_end_example :
  match onRealtimeWake #1000 Scripted.realtime_sim1 with
  | (r, sim') =>
      r ≠ Normal true
      ∧ realtimeIntervalId sim' = realtimeIntervalId Scripted.realtime_sim1
      ∧ period sim' = period Scripted.realtime_sim1
      ∧ ∀ name, name ∈ ["profit"; "ohlc"; "volume"; "effalloc"]%string →
          logs sim' !! name = logs Scripted.realtime_sim1 !! name
  end.
Proof.
  apply (onRealtimeWake_before_the_end _
           (default 0 (realtime Scripted.realtime_sim1))).
  - vm_compute. reflexivity.
  - vm_compute. reflexivity.
Defined.

(** A tick at time 1995 of a period that ends at 1000. *)
Lemma onRealtimeWake_at_the_end_example :
  match onRealtimeWake #1000 Scripted.realtime_sim_late with
  | (Normal r, sim') =>
      r = true
      ∧ realtimeIntervalId sim' = None
      ∧ periodTradePrices sim' = []
      ∧ period sim' = period Scripted.realtime_sim_late
      ∧ ∃ n, data <$> logs sim' !! "volume"
             = Some (data (Scripted.log_of "volume" Scripted.realtime_sim_late)
                     ++ [[Num (period Scripted.realtime_sim_late); Num n]])
  | (Throw _, sim') =>
      realtimeIntervalId sim' = None
      ∧ logs sim' !! "volume"
        = Some (Scripted.log_of "volume" Scripted.realtime_sim_late)
  end.
Proof.
  apply (onRealtimeWake_at_the_end _
           (default 0 (realtime Scripted.realtime_sim_late))).
  - vm_compute. reflexivity.
  - vm_compute. discriminate.
  - vm_compute. reflexivity.
Defined.

(** Running again the simulation whose two periods are over. *)
Lemma run_on_a_finished_simulation_example :
  run 5 (Some {| sync := Some true; update := None; delay := None |})
    Scripted.finished_sim
  = (Normal run_returned, Scripted.finished_sim)
  ∧ period (run 5 (Some {| sync := Some false; update := None; delay := None |})
              Scripted.finished_sim).2
    = period Scripted.finished_sim + 1
  ∧ period (run 5 None Scripted.finished_sim).2
    = period Scripted.finished_sim + 1.
Proof.
  apply run_on_a_finished_simulation. vm_compute. discriminate.
Defined.

(** Value 80 and cost 20: the gains are positive. *)
Lemma maximum_gains_positive_example :
  ∃ g sim',
    getMaximumPossibleGainsFromTrade Scripted.sim0 = (Normal g, sim')
    ∧ 0 ≤ g
    ∧ (0 < g ↔ ∃ b c, b ∈ [ #80] ∧ c ∈ [ #20] ∧ c < b).
Proof.
  apply maximum_gains_positive_iff_profitable_pair; vm_compute; reflexivity.
Defined.

Lemma getMaximumPossibleGainsFromTrade_order_irrelevant_example :
  (getMaximumPossibleGainsFromTrade
     (with_values [ #80; #60; #100] [ #70; #20] Scripted.sim0)).1
  = (getMaximumPossibleGainsFromTrade
       (with_values [ #100; #80; #60] [ #20; #70] Scripted.sim0)).1.
Proof.
  apply getMaximumPossibleGainsFromTrade_order_irrelevant.
  - reflexivity.
  - symmetry. apply (Permutation_cons_append [ #80; #60] #100).
  - apply perm_swap.
Defined.

(** The gains of 60 survive a change of the buyer values. *)
Lemma getMaximumPossibleGainsFromTrade_remembered_example :
  let s1 := (getMaximumPossibleGainsFromTrade Scripted.sim0).2 in
  let c := Config.set_buyerValues (Some [ #10]) Scripted.configuration in
  getMaximumPossibleGainsFromTrade (set_config c s1)
  = (Normal #60, set_config c s1).
Proof.
  apply (getMaximumPossibleGainsFromTrade_remembered Scripted.sim0).
  - rewrite getMaximumPossibleGainsFromTrade_run. f_equal. f_equal.
    compute_done.
  - vm_compute. discriminate.
Defined.

Lemma Log_lastByKey_of_header_only_example :
  Log_lastByKey "high"
    (Log_setHeader (Some (Str <$> ["period"; "open"; "high"; "low"; "close"]%string))
       (Log_new "./ohlc.csv"))
  = Some (Str "high").
Proof.
  apply Log_lastByKey_of_header_only. compute_done.
Defined.

Lemma Log_lastByKey_after_write_example :
  Log_lastByKey "low"
    (Log_write (Some (Num <$> [ #3; #50; #70; #40; #40]))
       (Scripted.log_of "ohlc" Scripted.sim3))
  = (Num <$> [ #3; #50; #70; #40; #40]) !! 3%nat
  ∧ Log_lastByKey "low" (Log_write None (Scripted.log_of "ohlc" Scripted.sim3))
    = Log_lastByKey "low" (Scripted.log_of "ohlc" Scripted.sim3).
Proof.
  apply (Log_lastByKey_after_write _
           (Str <$> ["period"; "open"; "high"; "low"; "close"]%string));
    vm_compute; reflexivity.
Defined.

(** After a period with prices 50, 70 and 40 the juicy bid price is 70 and
    the juicy ask price 40. *)
Lemma juicy_prices_after_logPeriod_example :
  ∃ sim',
    logPeriod Scripted.sim3_traded = (Normal (), sim')
    ∧ getJuicyBidPrice sim' = Some (Num #70)
    ∧ getJuicyAskPrice sim' = Some (Num #40).
Proof.
  destruct (juicy_prices_after_logPeriod Scripted.sim3_traded
              (Scripted.log_of "ohlc" Scripted.sim3_traded))
    as (sim' & Hrun & _ & Hsome);
    [vm_compute; reflexivity | vm_compute; reflexivity |].
  exists sim'. split; [exact Hrun|].
  vm_compute in Hrun. injection Hrun as <-. split; compute_done.
Defined.

Lemma juicy_prices_of_a_new_simulation_example :
  getJuicyBidPrice Scripted.sim0 = Some (Str "high")
  ∧ getJuicyAskPrice Scripted.sim0 = Some (Str "low").
Proof.
  apply (juicy_prices_of_a_new_simulation Scripted.configuration
           Scripted.world).
  vm_compute. reflexivity.
Defined.

(** One buyer value and one seller cost: one buyer, one seller, two
    agents. *)
Lemma constructor_counts_the_agents_example :
  agent_count None (Some [ #80]) = Some (numberOfBuyers Scripted.sim0)
  ∧ agent_count None (Some [ #20]) = Some (numberOfSellers Scripted.sim0)
  ∧ numberOfBuyers Scripted.sim0 ≠ 0
  ∧ numberOfSellers Scripted.sim0 ≠ 0
  ∧ numberOfAgents Scripted.sim0
    = numberOfBuyers Scripted.sim0 + numberOfSellers Scripted.sim0
  ∧ periodDuration Scripted.sim0 = or_else (Some #1000) #1000
  ∧ period Scripted.sim0 = 0
  ∧ periodTradePrices Scripted.sim0 = []
  ∧ realtimeIntervalId Scripted.sim0 = None
  ∧ maximumPossibleGainsFromTrade Scripted.sim0 = None.
Proof.
  apply (constructor_counts_the_agents Scripted.configuration Scripted.world).
  vm_compute. reflexivity.
Defined.

Lemma constructor_rejects_an_empty_side_example :
  ∃ sim,
    constructor Scripted.empty_side_configuration Scripted.world
    = (Throw (Error "single-market-robot-simulation: can not determine numberOfBuyers and/or numberOfSellers "),
       sim)
    ∧ config sim = rates_written Scripted.empty_side_configuration.
Proof.
  apply (constructor_rejects_an_empty_side _ _ #0 #1);
    [vm_compute; reflexivity | vm_compute; reflexivity | left; compute_done].
Defined.

Lemma constructor_needs_a_count_or_an_array_example :
  ∃ msg sim,
    constructor Scripted.countless_configuration Scripted.world
    = (Throw (TypeError msg), sim)
    ∧ config sim = Scripted.countless_configuration.
Proof.
  apply constructor_needs_a_count_or_an_array. left. reflexivity.
Defined.
